(** * seller.py: synchronising watch remnants with the marketplace catalogue

    A shallow embedding of [seller.py] and the properties of its
    transformer, batcher, catalogue client and orchestrator.

    Modelling conventions.
    - Python [str] values are Rocq strings holding the UTF-8 bytes of the
      text.  [split(".")] and the pattern [[^0-9]] look for ASCII characters
      only; the bytes of a non-ASCII character are all above 127, so they
      are never mistaken for one of those.  [int] is modelled on ASCII text
      of at most 4300 characters, which Python reads the same way since
      version 3.6; the digits and blanks of other scripts, which [int] also
      reads, and the limit that later versions put on the number of digits
      are left out, and the properties that say what [int] reads from a
      text are stated for ASCII text within that limit.  Floating point
      cells are left out as well.
    - A spreadsheet row is a Python [dict]; it is a [gmap string pyval], and
      [d.get(k)] is [dict_get].
    - The list [offer_ids] is a mutable object that several calls share; it
      lives in a heap of list objects and is passed by reference.
    - Exceptions are results: every effectful function returns an [outcome]
      together with the state it leaves behind.
    - The network and the file system are an arbitrary deterministic
      [World]; every request is recorded in a trace. *)

From Stdlib Require Import ZArith Ascii.
From stdpp Require Import base numbers strings list gmap pretty.

Local Open Scope Z_scope.

(** ** Python values and exceptions *)

(** The cell values that [pandas.read_excel] hands over and that the code
    inspects: text, integers, and [None] for a key that is absent. *)
Inductive pyval :=
| VNone
| VStr (s : string)
| VInt (z : Z).

Global Instance pyval_eq_dec : EqDecision pyval.
Proof. solve_decision. Defined.

(** The exception classes the program can meet.  All of them derive from
    [Exception]; [ConnectTimeout] derives from [ConnectionError]. *)
Inductive exn :=
| ReadTimeout
| ConnectionError
| ConnectTimeout
| HTTPError
| RequestException
| BadZipFile
| FileNotFoundError
| ValueError
| TypeError
| AttributeError
| EnvError
| OtherException.

Global Instance exn_eq_dec : EqDecision exn.
Proof. solve_decision. Defined.

(** A computation without side effects that may raise. *)
Inductive result (A : Type) :=
| Ok (a : A)
| Err (e : exn).
Global Arguments Ok {A} a.
Global Arguments Err {A} e.

Definition dict := gmap string pyval.

(** [d.get(k)]: the value under [k], [None] when the key is absent. *)
Definition dict_get (d : dict) (k : string) : pyval :=
  default VNone (d !! k).

(** [str(v)]. *)
Definition str (v : pyval) : string :=
  match v with
  | VNone => "None"
  | VStr s => s
  | VInt z => pretty z
  end.

(** *** [int(v)] *)

(** The value of a character in "0".."9", by its code. *)
Definition digit_of (c : ascii) : option Z :=
  let code := Z.of_N (N_of_ascii c) in
  if bool_decide (48 ≤ code ≤ 57) then Some (code - 48) else None.

Definition is_digit (c : ascii) : bool :=
  match digit_of c with Some _ => true | None => false end.

(** The ASCII white space that [int] strips from both ends of its argument:
    tab, line feed, vertical tab, form feed, carriage return and the blank.
    The separators 28 to 31 are not among them: [int] rejects them. *)
Definition is_space (c : ascii) : bool :=
  let code := Z.of_N (N_of_ascii c) in
  bool_decide (9 ≤ code ≤ 13) || bool_decide (code = 32).

Fixpoint lstrip (s : string) : string :=
  match s with
  | String c s' => if is_space c then lstrip s' else s
  | EmptyString => EmptyString
  end.

Fixpoint rstrip (s : string) : string :=
  match s with
  | EmptyString => EmptyString
  | String c s' =>
      match rstrip s' with
      | EmptyString => if is_space c then EmptyString else String c EmptyString
      | r => String c r
      end
  end.

Definition strip (s : string) : string := rstrip (lstrip s).

(** Digits with single underscores between them; [after_digit] says whether
    the previous character was a digit. *)
Fixpoint digits_value (acc : Z) (after_digit : bool) (s : string) : option Z :=
  match s with
  | EmptyString => if after_digit then Some acc else None
  | String c s' =>
      match digit_of c with
      | Some d => digits_value (10 * acc + d) true s'
      | None =>
          if (bool_decide (c = "_"%char) && after_digit)%bool
          then digits_value acc false s'
          else None
      end
  end.

(** [int(s)] for text in base ten: surrounding white space, an optional
    sign, then the digits.  This is [int] on ASCII text of at most 4300
    characters; the properties that say what [int] reads from a text are
    stated for such text. *)
Definition int_of_string (s : string) : option Z :=
  match strip s with
  | EmptyString => None
  | String c s' =>
      if bool_decide (c = "-"%char) then Z.opp <$> digits_value 0 false s'
      else if bool_decide (c = "+"%char) then digits_value 0 false s'
      else digits_value 0 false (String c s')
  end.

Definition int (v : pyval) : result Z :=
  match v with
  | VInt z => Ok z
  | VStr s =>
      match int_of_string s with
      | Some z => Ok z
      | None => Err ValueError
      end
  | VNone => Err TypeError
  end.

(** ** [price_conversion] *)

(** [price.split(".")[0]]: the text before the first ".". *)
Fixpoint split_dot_0 (s : string) : string :=
  match s with
  | EmptyString => EmptyString
  | String c s' =>
      if bool_decide (c = "."%char) then EmptyString
      else String c (split_dot_0 s')
  end.

(** [re.sub("[^0-9]", "", s)]: delete every character outside "0".."9". *)
Fixpoint sub_non_digits (s : string) : string :=
  match s with
  | EmptyString => EmptyString
  | String c s' =>
      if is_digit c then String c (sub_non_digits s') else sub_non_digits s'
  end.

Definition price_conversion (price : string) : string :=
  sub_non_digits (split_dot_0 price).

(** ** [divide] *)

(** [range(start, stop, step)] for a positive step. *)
Fixpoint range_from (fuel : nat) (i stop step : nat) : list nat :=
  match fuel with
  | O => []
  | S fuel' =>
      if bool_decide (i < stop)%nat
      then i :: range_from fuel' (i + step) stop step
      else []
  end.

Definition range (start stop step : nat) : list nat :=
  range_from stop start stop step.

(** The slice [lst[i : j]] for [0 <= i <= j]. *)
Definition slice {A} (lst : list A) (i j : nat) : list A :=
  take (j - i) (drop i lst).

(** [list(divide(lst, n))].  [range] raises [ValueError] for a zero step and
    is empty for a negative one. *)
Definition divide {A} (lst : list A) (n : Z) : result (list (list A)) :=
  if bool_decide (n = 0) then Err ValueError
  else if bool_decide (n < 0) then Ok []
  else
    let step := Z.to_nat n in
    Ok ((λ i, slice lst i (i + step)) <$> range 0 (length lst) step).

(** ** Payloads *)

(** One entry of a stock update, [{"offer_id": ..., "stock": ...}]. *)
Module Stock.
Record t := make { offer_id : string; stock : Z }.
#[global] Instance eq_dec : EqDecision t.
Proof. solve_decision. Defined.
End Stock.

(** One entry of a price update. *)
Module Price.
Record t := make {
  auto_action_enabled : string;
  currency_code : string;
  offer_id : string;
  old_price : string;
  price : string
}.
#[global] Instance eq_dec : EqDecision t.
Proof. solve_decision. Defined.
End Price.

(** One product of the catalogue, as far as the code reads it. *)
Module Product.
Record t := make { offer_id : string }.
End Product.

(** The ["result"] object of a product list reply. *)
Module Page.
Record t := make {
  items : list Product.t;
  total : Z;
  last_id : string
}.
End Page.

(** ** The world outside and the program state *)

(** Every request the program sends. *)
Inductive event :=
| ProductListRequest (last_id client_id seller_token : string)
| RemnantsDownload
| StocksRequest (stocks : list Stock.t) (client_id seller_token : string)
| PricesRequest (prices : list Price.t) (client_id seller_token : string).

(** The marketplace and the remnants site: each request either raises or
    answers, and moves the world on.  A reply that lacks the fields the code
    reads makes the caller raise before it does anything else, and counts as
    a raising request here. *)
Record network (World : Type) := {
  product_list_reply :
    string → string → string → World → result Page.t * World;
  remnants_reply : World → result (list dict) * World;
  stocks_reply : list Stock.t → string → string → World → result () * World;
  prices_reply : list Price.t → string → string → World → result () * World
}.
Global Arguments product_list_reply {World}.
Global Arguments remnants_reply {World}.
Global Arguments stocks_reply {World}.
Global Arguments prices_reply {World}.

(** An argument of [print]: text, or an exception shown by its [str]. *)
Inductive printed :=
| PStr (s : string)
| PExn (e : exn).

Definition loc := nat.

Record state (World : Type) := {
  heap : gmap loc (list string);
  world : World;
  trace : list event;
  stdout : list (list printed)
}.
Global Arguments heap {World}.
Global Arguments world {World}.
Global Arguments trace {World}.
Global Arguments stdout {World}.

(** How a computation ends: it returns, it raises, or its loop is still
    running when the fuel is spent. *)
Inductive outcome (A : Type) :=
| Return (a : A)
| Raise (e : exn)
| Running.
Global Arguments Return {A} a.
Global Arguments Raise {A} e.
Global Arguments Running {A}.

Section Program.
Context {World : Type} (net : network World).

Definition M (A : Type) : Type := state World → outcome A * state World.

Global Instance M_ret : MRet M := λ A a σ, (Return a, σ).

Global Instance M_bind : MBind M := λ A B f m σ,
  match m σ with
  | (Return a, σ') => f a σ'
  | (Raise e, σ') => (Raise e, σ')
  | (Running, σ') => (Running, σ')
  end.

Definition raise {A} (e : exn) : M A := λ σ, (Raise e, σ).

Definition running {A} : M A := λ σ, (Running, σ).

Definition lift {A} (r : result A) : M A :=
  match r with
  | Ok a => mret a
  | Err e => raise e
  end.

(** A new list object. *)
Definition alloc (v : list string) : M loc := λ σ,
  let l := fresh (dom (heap σ)) in
  (Return l,
   {| heap := <[l := v]> (heap σ); world := world σ;
      trace := trace σ; stdout := stdout σ |}).

(** The contents of a list object.  A reference always points to an object;
    a location that was never allocated reads as the empty list. *)
Definition read (l : loc) : M (list string) := λ σ, (Return (heap σ !!! l), σ).

Definition write (l : loc) (v : list string) : M () := λ σ,
  (Return (),
   {| heap := <[l := v]> (heap σ); world := world σ;
      trace := trace σ; stdout := stdout σ |}).

Definition print (line : list printed) : M () := λ σ,
  (Return (),
   {| heap := heap σ; world := world σ;
      trace := trace σ; stdout := stdout σ ++ [line] |}).

(** Send a request: record it, then let the world answer. *)
Definition request {A} (ev : event) (reply : World → result A * World) : M A :=
  λ σ,
  let '(r, w) := reply (world σ) in
  lift r {| heap := heap σ; world := w;
            trace := trace σ ++ [ev]; stdout := stdout σ |}.

(** [for x in xs: body(x)]. *)
Fixpoint for_each {A} (xs : list A) (body : A → M ()) : M () :=
  match xs with
  | [] => mret ()
  | x :: xs' => body x;; for_each xs' body
  end.

(** [try: body / except ...: handler]; a handler that re-raises models an
    exception no clause matches. *)
Definition try_except {A} (body : M A) (handler : exn → M A) : M A := λ σ,
  match body σ with
  | (Raise e, σ') => handler e σ'
  | r => r
  end.

(** ** Remote catalogue client *)

Definition get_product_list (last_id client_id seller_token : string)
  : M Page.t :=
  request (ProductListRequest last_id client_id seller_token)
          (product_list_reply net last_id client_id seller_token).

(** The [while True] loop of [get_offer_ids]; one unit of fuel per turn. *)
Fixpoint get_offer_ids_loop (fuel : nat) (last_id : string)
    (product_list : list Product.t) (client_id seller_token : string)
  : M (list Product.t) :=
  match fuel with
  | O => running
  | S fuel' =>
      some_prod ← get_product_list last_id client_id seller_token;
      let product_list := product_list ++ Page.items some_prod in
      let total := Page.total some_prod in
      let last_id := Page.last_id some_prod in
      if bool_decide (total = Z.of_nat (length product_list))
      then mret product_list
      else get_offer_ids_loop fuel' last_id product_list
                              client_id seller_token
  end.

Definition get_offer_ids (fuel : nat) (client_id seller_token : string)
  : M loc :=
  product_list ← get_offer_ids_loop fuel "" [] client_id seller_token;
  alloc (Product.offer_id <$> product_list).

Definition update_price (prices : list Price.t)
    (client_id seller_token : string) : M () :=
  request (PricesRequest prices client_id seller_token)
          (prices_reply net prices client_id seller_token).

Definition update_stocks (stocks : list Stock.t)
    (client_id seller_token : string) : M () :=
  request (StocksRequest stocks client_id seller_token)
          (stocks_reply net stocks client_id seller_token).

(** ** Remnants fetcher *)

Definition download_stock : M (list dict) :=
  request RemnantsDownload (remnants_reply net).

(** ** Transformer *)

(** [l.remove(x)] on the contents of a list: the first occurrence goes,
    [None] when there is none. *)
Fixpoint remove_first (x : string) (l : list string) : option (list string) :=
  match l with
  | [] => None
  | y :: l' =>
      if bool_decide (y = x) then Some l' else cons y <$> remove_first x l'
  end.

(** [offer_ids.remove(x)]: changes the list object in place; [ValueError]
    when [x] is not in it. *)
Definition list_remove (offer_ids : loc) (x : string) : M () :=
  ids ← read offer_ids;
  match remove_first x ids with
  | Some ids' => write offer_ids ids'
  | None => raise ValueError
  end.

(** The [if]/[elif]/[else] that turns the quantity cell into a stock. *)
Definition stock_of (watch : dict) : result Z :=
  let count := str (dict_get watch "Количество") in
  if bool_decide (count = ">10") then Ok 100
  else if bool_decide (count = "1") then Ok 0
  else int (dict_get watch "Количество").

(** The first loop of [create_stocks]. *)
Fixpoint create_stocks_loop (watch_remnants : list dict) (offer_ids : loc)
    (stocks : list Stock.t) : M (list Stock.t) :=
  match watch_remnants with
  | [] => mret stocks
  | watch :: rest =>
      ids ← read offer_ids;
      if bool_decide (str (dict_get watch "Код") ∈ ids) then
        stock ← lift (stock_of watch);
        let stocks :=
          stocks ++ [Stock.make (str (dict_get watch "Код")) stock] in
        list_remove offer_ids (str (dict_get watch "Код"));;
        create_stocks_loop rest offer_ids stocks
      else create_stocks_loop rest offer_ids stocks
  end.

Definition create_stocks (watch_remnants : list dict) (offer_ids : loc)
  : M (list Stock.t) :=
  stocks ← create_stocks_loop watch_remnants offer_ids [];
  ids ← read offer_ids;
  mret (stocks ++ ((λ offer_id, Stock.make offer_id 0) <$> ids)).

(** [price_conversion(watch.get("Цена"))]: only text has [split]. *)
Definition price_conversion_of (v : pyval) : result string :=
  match v with
  | VStr price => Ok (price_conversion price)
  | _ => Err AttributeError
  end.

Fixpoint create_prices_loop (watch_remnants : list dict) (offer_ids : loc)
    (prices : list Price.t) : M (list Price.t) :=
  match watch_remnants with
  | [] => mret prices
  | watch :: rest =>
      ids ← read offer_ids;
      if bool_decide (str (dict_get watch "Код") ∈ ids) then
        converted ← lift (price_conversion_of (dict_get watch "Цена"));
        let price :=
          {| Price.auto_action_enabled := "UNKNOWN";
             Price.currency_code := "RUB";
             Price.offer_id := str (dict_get watch "Код");
             Price.old_price := "0";
             Price.price := converted |} in
        create_prices_loop rest offer_ids (prices ++ [price])
      else create_prices_loop rest offer_ids prices
  end.

Definition create_prices (watch_remnants : list dict) (offer_ids : loc)
  : M (list Price.t) :=
  create_prices_loop watch_remnants offer_ids [].

(** ** Orchestrator *)

(** The two [async] entry points await nothing; they run as plain
    sequential procedures. *)
Definition upload_prices (fuel : nat) (watch_remnants : list dict)
    (client_id seller_token : string) : M (list Price.t) :=
  offer_ids ← get_offer_ids fuel client_id seller_token;
  prices ← create_prices watch_remnants offer_ids;
  chunks ← lift (divide prices 1000);
  for_each chunks (λ some_price,
    update_price some_price client_id seller_token);;
  mret prices.

Definition upload_stocks (fuel : nat) (watch_remnants : list dict)
    (client_id seller_token : string) : M (list Stock.t * list Stock.t) :=
  offer_ids ← get_offer_ids fuel client_id seller_token;
  stocks ← create_stocks watch_remnants offer_ids;
  chunks ← lift (divide stocks 100);
  for_each chunks (λ some_stock,
    update_stocks some_stock client_id seller_token);;
  let not_empty :=
    filter (λ stock, Stock.stock stock ≠ 0) stocks in
  mret (not_empty, stocks).

(** [env.str(name)]: the variable must be set. *)
Definition env_str (environ : gmap string string) (name : string) : M string :=
  match environ !! name with
  | Some v => mret v
  | None => raise EnvError
  end.

(** The first half of the [try] block of [main]: fetch, then update the
    stocks. *)
Definition main_update_stocks (fuel : nat) (client_id seller_token : string)
  : M (list dict * loc) :=
  offer_ids ← get_offer_ids fuel client_id seller_token;
  watch_remnants ← download_stock;
  stocks ← create_stocks watch_remnants offer_ids;
  chunks ← lift (divide stocks 100);
  for_each chunks (λ some_stock,
    update_stocks some_stock client_id seller_token);;
  mret (watch_remnants, offer_ids).

(** The second half: change the prices. *)
Definition main_change_prices (watch_remnants : list dict) (offer_ids : loc)
    (client_id seller_token : string) : M () :=
  prices ← create_prices watch_remnants offer_ids;
  chunks ← lift (divide prices 900);
  for_each chunks (λ some_price,
    update_price some_price client_id seller_token).

Definition main_try (fuel : nat) (client_id seller_token : string) : M () :=
  '(watch_remnants, offer_ids) ←
    main_update_stocks fuel client_id seller_token;
  main_change_prices watch_remnants offer_ids client_id seller_token.

(** [isinstance] for the classes named in the [except] clauses. *)
Inductive exn_class :=
| ClsReadTimeout
| ClsConnectionError
| ClsException.

Definition isinstance (e : exn) (cls : exn_class) : bool :=
  match cls with
  | ClsReadTimeout => bool_decide (e = ReadTimeout)
  | ClsConnectionError =>
      bool_decide (e = ConnectionError) || bool_decide (e = ConnectTimeout)
  | ClsException => true
  end.

(** The [except] clauses of [main], in the order they are written. *)
Definition main_except : list (exn_class * (exn → M ())) :=
  [ (ClsReadTimeout, λ _, print [PStr "Превышено время ожидания..."]);
    (ClsConnectionError, λ error, print [PExn error; PStr "Ошибка соединения"]);
    (ClsException, λ error, print [PExn error; PStr "ERROR_2"]) ].

(** The first clause whose class the exception belongs to handles it; with
    no such clause the exception goes on. *)
Fixpoint handle (clauses : list (exn_class * (exn → M ()))) (e : exn) : M () :=
  match clauses with
  | [] => raise e
  | (cls, handler) :: clauses' =>
      if isinstance e cls then handler e else handle clauses' e
  end.

Definition main (fuel : nat) (environ : gmap string string) : M () :=
  seller_token ← env_str environ "SELLER_TOKEN";
  client_id ← env_str environ "CLIENT_ID";
  try_except (main_try fuel client_id seller_token) (handle main_except).

End Program.

(** ** A scripted world

    The marketplace answers the product list requests with the given pages,
    one per request, and refuses the connection once they are used up; the
    remnants site serves the given rows; every upload succeeds. *)
Definition scripted (remnants : list dict) : network (list Page.t) := {|
  product_list_reply := λ _ _ _ w,
    match w with
    | p :: w' => (Ok p, w')
    | [] => (Err ConnectionError, [])
    end;
  remnants_reply := λ w, (Ok remnants, w);
  stocks_reply := λ _ _ _ w, (Ok (), w);
  prices_reply := λ _ _ _ w, (Ok (), w)
|}.

Definition initial {World} (w : World) : state World :=
  {| heap := ∅; world := w; trace := []; stdout := [] |}.

(** A row of the spreadsheet with the three cells the code reads. *)
Definition row (code quantity price : pyval) : dict :=
  <["Код" := code]> (<["Количество" := quantity]> (<["Цена" := price]> ∅)).

Definition credentials : gmap string string :=
  <["SELLER_TOKEN" := "token"]> (<["CLIENT_ID" := "client"]> ∅).

(** * The vocabulary of the properties *)

(** ** Text *)

Abbreviation chars := String.list_ascii_of_string.



(** *** Numerals

    What [int] reads from text, said without its code: white space, an
    optional sign, digits with single underscores between them, white
    space; the value is that of the digits in base ten. *)







(** [isinstance(v, str)]. *)
Definition is_str (v : pyval) : bool :=
  match v with
  | VStr _ => true
  | _ => false
  end.

(** ** The transformer as a function of the list contents

    [create_stocks] and [create_prices] touch the state only through the
    list object they are given.  Their loops are therefore functions of its
    contents; the properties are proved on these functions and carried over
    to the program. *)

Abbreviation sku watch := (str (dict_get watch "Код")).

Definition outcome_of {A} (r : result A) : outcome A :=
  match r with
  | Ok a => Return a
  | Err e => Raise e
  end.

Fixpoint stocks_of_rows (watch_remnants : list dict) (ids : list string)
    (stocks : list Stock.t) : result (list Stock.t) * list string :=
  match watch_remnants with
  | [] => (Ok stocks, ids)
  | watch :: rest =>
      if bool_decide (sku watch ∈ ids) then
        match stock_of watch, remove_first (sku watch) ids with
        | Err e, _ => (Err e, ids)
        | Ok _, None => (Err ValueError, ids)
        | Ok stock, Some ids' =>
            stocks_of_rows rest ids' (stocks ++ [Stock.make (sku watch) stock])
        end
      else stocks_of_rows rest ids stocks
  end.

Fixpoint prices_of_rows (watch_remnants : list dict) (ids : list string)
    (prices : list Price.t) : result (list Price.t) :=
  match watch_remnants with
  | [] => Ok prices
  | watch :: rest =>
      if bool_decide (sku watch ∈ ids) then
        match price_conversion_of (dict_get watch "Цена") with
        | Err e => Err e
        | Ok converted =>
            prices_of_rows rest ids
              (prices ++ [Price.make "UNKNOWN" "RUB" (sku watch) "0" converted])
        end
      else prices_of_rows rest ids prices
  end.

(** Nothing but the list object [l] differs between the two states. *)
Definition only_changes {World} (l : loc) (σ σ' : state World) : Prop :=
  world σ' = world σ ∧ trace σ' = trace σ ∧ stdout σ' = stdout σ ∧
  ∀ l', l' ≠ l → heap σ' !! l' = heap σ !! l'.

(** *** Which rows match and which SKUs are left

    Said by counting, without the removals: a row matches when fewer rows
    before it carry its SKU than the list holds copies of that SKU; and of
    the copies of a SKU in the list, as many of the first are gone as there
    are rows that carry it. *)

(** How many of the rows carry the SKU [x]. *)
Definition rows_count (rows : list dict) (x : string) : nat :=
  length (filter (λ watch, sku watch = x) rows).

(** How many copies of [x] the list holds. *)
Definition sku_count (ids : list string) (x : string) : nat :=
  length (filter (λ y, y = x) ids).

(** The rows of [rows] that match, [earlier] being the rows before them. *)
Fixpoint matched_rows (ids : list string) (earlier rows : list dict)
  : list dict :=
  match rows with
  | [] => []
  | watch :: rest =>
      let others := matched_rows ids (earlier ++ [watch]) rest in
      if bool_decide (rows_count earlier (sku watch)
                      < sku_count ids (sku watch))%nat
      then watch :: others else others
  end.

(** One copy less to drop of [x]. *)
Definition one_less (n : string → nat) (x : string) : string → nat :=
  λ y, if bool_decide (y = x) then pred (n y) else n y.

(** One copy more to drop of [x]. *)
Definition one_more (n : string → nat) (x : string) : string → nat :=
  λ y, if bool_decide (y = x) then S (n y) else n y.

(** The list without the first [n x] copies of every [x]. *)
Fixpoint drop_firsts (n : string → nat) (ids : list string) : list string :=
  match ids with
  | [] => []
  | x :: ids' =>
      match n x with
      | O => x :: drop_firsts n ids'
      | S _ => drop_firsts (one_less n x) ids'
      end
  end.

(** The SKUs that no row has taken, in the order of the list. *)
Definition unmatched_skus (rows : list dict) (ids : list string)
  : list string :=
  drop_firsts (rows_count rows) ids.

(** The entry that a matched row leaves in the output. *)
Definition emits (watch : dict) (entry : Stock.t) : Prop :=
  Stock.offer_id entry = sku watch ∧ stock_of watch = Ok (Stock.stock entry).

Definition zero_stock (offer_id : string) : Stock.t := Stock.make offer_id 0.

(** Every SKU of the list occurs exactly once in the output, as the
    specification words it. *)
Definition every_sku_exactly_once {World} (watch_remnants : list dict)
    (l : loc) (σ : state World) : Prop :=
  ∀ out σ', create_stocks watch_remnants l σ = (Return out, σ') →
    ∀ x, x ∈ heap σ !!! l →
      length (filter (λ y, y = x) (Stock.offer_id <$> out)) = 1%nat.

(** The price update that a row yields. *)
Definition priced (watch : dict) (p : Price.t) : Prop :=
  ∃ text, dict_get watch "Цена" = VStr text ∧
    p = {| Price.auto_action_enabled := "UNKNOWN";
           Price.currency_code := "RUB";
           Price.offer_id := sku watch;
           Price.old_price := "0";
           Price.price := price_conversion text |}.

(** ** The catalogue loop *)

(** A marketplace whose every page brings one more product and reports a
    total of zero. *)
Definition growing : network () := {|
  product_list_reply := λ _ _ _ w,
    (Ok (Page.make [Product.make "a"] 0 "next"), w);
  remnants_reply := λ w, (Ok [], w);
  stocks_reply := λ _ _ _ w, (Ok (), w);
  prices_reply := λ _ _ _ w, (Ok (), w)
|}.

(** The loop after [k] turns that all went on to the next turn: the cursor,
    the products gathered and the state; [None] when one of those turns
    raised or left the loop. *)
Fixpoint continued {World} (net : network World)
    (client_id seller_token : string) (k : nat) (last_id : string)
    (product_list : list Product.t) (σ : state World)
  : option (string * list Product.t * state World) :=
  match k with
  | O => Some (last_id, product_list, σ)
  | S k' =>
      match get_product_list net last_id client_id seller_token σ with
      | (Return some_prod, σ') =>
          let product_list := product_list ++ Page.items some_prod in
          if bool_decide
               (Page.total some_prod = Z.of_nat (length product_list))
          then None
          else continued net client_id seller_token k'
                 (Page.last_id some_prod) product_list σ'
      | _ => None
      end
  end.

(** ** The requests of a run *)

Definition is_product_list_request (ev : event) : Prop :=
  ∃ cursor client_id seller_token,
    ev = ProductListRequest cursor client_id seller_token.

Definition is_prices_request (ev : event) : bool :=
  match ev with
  | PricesRequest _ _ _ => true
  | _ => false
  end.

(** What [main] prints for an exception of the [try] block. *)
Definition notice (e : exn) : list printed :=
  match e with
  | ReadTimeout => [PStr "Превышено время ожидания..."]
  | ConnectionError | ConnectTimeout => [PExn e; PStr "Ошибка соединения"]
  | _ => [PExn e; PStr "ERROR_2"]
  end.

(** The requests of a run of the [try] block, by the step at which the run
    stopped: while the SKU list was fetched; at the download of the remnants
    or the computation of the stocks; while the stock chunks were sent or
    the prices computed; while the price chunks were sent, or at the end.
    Stock chunks hold up to 100 entries and price chunks up to 900. *)
Inductive main_run (client_id seller_token : string)
  : outcome () → list event → Prop :=
| run_sku_list r lists :
    Forall is_product_list_request lists →
    r ≠ Return () →
    main_run client_id seller_token r lists
| run_remnants e lists :
    Forall is_product_list_request lists →
    main_run client_id seller_token (Raise e) (lists ++ [RemnantsDownload])
| run_stocks e lists stocks chunks sent :
    Forall is_product_list_request lists →
    divide stocks 100 = Ok chunks →
    sent `prefix_of` chunks →
    main_run client_id seller_token (Raise e)
      (lists ++ [RemnantsDownload]
       ++ ((λ chunk, StocksRequest chunk client_id seller_token) <$> sent))
| run_prices r lists stocks chunks prices chunks' sent :
    Forall is_product_list_request lists →
    divide stocks 100 = Ok chunks →
    divide prices 900 = Ok chunks' →
    sent `prefix_of` chunks' →
    r ≠ Running →
    (r = Return () → sent = chunks') →
    main_run client_id seller_token r
      (lists ++ [RemnantsDownload]
       ++ ((λ chunk, StocksRequest chunk client_id seller_token) <$> chunks)
       ++ ((λ chunk, PricesRequest chunk client_id seller_token) <$> sent)).

(** The order as the specification words it: the remnants are fetched
    before the SKU list. *)
Definition remnants_fetched_first (t : list event) : Prop :=
  ∀ i j ev, t !! i = Some RemnantsDownload → t !! j = Some ev →
            is_product_list_request ev → (i < j)%nat.

Definition void {A} (r : outcome A) : outcome () :=
  match r with
  | Return _ => Return ()
  | Raise e => Raise e
  | Running => Running
  end.

(** One row and a catalogue that lists its SKU twice: the second occurrence
    survives [create_stocks], so this run does send a price. *)
Definition one_row : list dict :=
  [row (VStr "123") (VStr ">10") (VStr "5000.00")].

Definition listed_twice : list Page.t :=
  [Page.make [Product.make "123"; Product.make "123"] 2 "p1"].

Definition listed_once : list Page.t :=
  [Page.make [Product.make "123"] 1 "p1"].

(** The stock chunks among the requests, in the order they were sent. *)
Definition stocks_sent (t : list event) : list (list Stock.t) :=
  omap (λ ev, match ev with
              | StocksRequest stocks _ _ => Some stocks
              | _ => None
              end) t.

(** * Properties *)

(** ** The documented examples *)

Example divide_doc_7 :
  divide [1; 2; 3; 4; 5; 6; 7] 3 = Ok [[1; 2; 3]; [4; 5; 6]; [7]].
Proof. reflexivity. Qed.

Example divide_doc_5 :
  divide [1; 2; 3; 4; 5] 2 = Ok [[1; 2]; [3; 4]; [5]].
Proof. reflexivity. Qed.

Example price_conversion_doc_1 : price_conversion "123.45 USD" = "123".
Proof. reflexivity. Qed.

Example price_conversion_doc_2 : price_conversion "a1b2c3" = "123".
Proof. reflexivity. Qed.

Example int_examples :
  int (VStr " 12 ") = Ok 12 ∧ int (VStr "-3") = Ok (-3) ∧
  int (VStr "1_000") = Ok 1000 ∧ int (VStr "") = Err ValueError ∧
  int (VStr "5.0") = Err ValueError ∧ int (VStr "1__0") = Err ValueError ∧
  int (VStr "007") = Ok 7 ∧ int (VStr "_1") = Err ValueError ∧
  int (VStr "- 1") = Err ValueError ∧ int (VStr ">10") = Err ValueError ∧
  int (VStr "+5 ") = Ok 5 ∧ int (VStr "   ") = Err ValueError ∧
  int (VStr "1 2") = Err ValueError ∧ int (VStr "12_") = Err ValueError.
Proof. repeat split; reflexivity. Qed.

(** ** [price_conversion] *)

Lemma split_dot_0_no_dot s : "."%char ∉ chars s → split_dot_0 s = s.
Proof.
  induction s as [|c s IH]; simpl; [done|].
  intros Hs. apply not_elem_of_cons in Hs as [Hc Hs].
  rewrite bool_decide_eq_false_2 by done. by rewrite IH.
Qed.

Lemma split_dot_0_at_dot a b :
  "."%char ∉ chars a → split_dot_0 (a +:+ String "." b) = a.
Proof.
  induction a as [|c a IH]; simpl; [done|].
  intros Hs. apply not_elem_of_cons in Hs as [Hc Hs].
  rewrite bool_decide_eq_false_2 by done. by rewrite IH.
Qed.

Lemma chars_sub_non_digits s :
  chars (sub_non_digits s) = filter (λ c, is_digit c) (chars s).
Proof.
  induction s as [|c s IH]; simpl; [done|].
  destruct (is_digit c) eqn:Hc.
  - rewrite filter_cons_True by (by apply Is_true_true). simpl. by rewrite IH.
  - rewrite filter_cons_False by (by apply Is_true_false). done.
Qed.

Lemma sub_non_digits_digits s :
  Forall (λ c, is_digit c) (chars s) → sub_non_digits s = s.
Proof.
  induction s as [|c s IH]; simpl; [done|].
  intros Hs. apply Forall_cons in Hs as [Hc Hs].
  destruct (is_digit c); [|done]. by rewrite IH.
Qed.

Lemma sub_non_digits_all_digits s :
  Forall (λ c, is_digit c) (chars (sub_non_digits s)).
Proof.
  rewrite chars_sub_non_digits. apply Forall_forall.
  intros c Hc. by apply list_elem_of_filter in Hc as [Hc _].
Qed.

Lemma digits_no_dot s :
  Forall (λ c, is_digit c) (chars s) → "."%char ∉ chars s.
Proof.
  intros Hs Hdot. rewrite Forall_forall in Hs. by apply Hs in Hdot.
Qed.

(** C5. [price_conversion] cuts its argument at the first "." and then
    deletes every character that is not a digit: the result of a text
    [a.b], where [a] has no ".", is the digits of [a] in their order, and the
    result of a text without "." is its digits.  The four documented
    examples evaluate as stated, every text made of digits only is returned
    unchanged, and so a second conversion changes nothing. *)
Theorem price_conversion_truncates_then_strips :
  (∀ a b, "."%char ∉ chars a →
     chars (price_conversion (a +:+ String "." b))
     = filter (λ c, is_digit c) (chars a)) ∧
  (∀ s, "."%char ∉ chars s →
     chars (price_conversion s) = filter (λ c, is_digit c) (chars s)) ∧
  price_conversion "123.45 USD" = "123" ∧
  price_conversion "a1b2c3" = "123" ∧
  price_conversion "5000.00" = "5000" ∧
  price_conversion "7000.50 RUB" = "7000" ∧
  (∀ s, Forall (λ c, is_digit c) (chars s) → price_conversion s = s) ∧
  (∀ s, price_conversion (price_conversion s) = price_conversion s).
Proof.
  split_and!; try reflexivity.
  - intros a b Ha. unfold price_conversion.
    by rewrite split_dot_0_at_dot, chars_sub_non_digits.
  - intros s Hs. unfold price_conversion.
    by rewrite split_dot_0_no_dot, chars_sub_non_digits.
  - intros s Hs. unfold price_conversion.
    rewrite split_dot_0_no_dot by by apply digits_no_dot.
    by apply sub_non_digits_digits.
  - intros s. unfold price_conversion at 1.
    pose proof (sub_non_digits_all_digits (split_dot_0 s)) as Hd.
    fold (price_conversion s) in Hd.
    rewrite split_dot_0_no_dot by by apply digits_no_dot.
    by apply sub_non_digits_digits.
Qed.

Lemma price_conversion_truncates_then_strips_witness :
  chars (price_conversion ("12 3" +:+ String "." "4.5"))
  = filter (λ c, is_digit c) (chars "12 3") ∧
  chars (price_conversion "1a2") = filter (λ c, is_digit c) (chars "1a2") ∧
  price_conversion "0042" = "0042".
Proof.
  destruct price_conversion_truncates_then_strips
    as (Hcut & Hstrip & _ & _ & _ & _ & Hdigits & _).
  split_and!.
  - apply Hcut. apply (bool_decide_unpack _). by vm_compute.
  - apply Hstrip. apply (bool_decide_unpack _). by vm_compute.
  - apply Hdigits. by repeat constructor.
Defined.

(** ** [divide] *)

Section Divide.
Context {A : Type}.
Implicit Types (lst : list A) (step fuel i k : nat).

Lemma range_from_lookup fuel i stop step k j :
  range_from fuel i stop step !! k = Some j →
  j = (i + k * step)%nat ∧ (j < stop)%nat.
Proof.
  revert i k. induction fuel as [|fuel IH]; intros i k; simpl; [done|].
  case_bool_decide as Hi; [|done].
  destruct k as [|k]; simpl.
  - intros [= <-]. lia.
  - intros Hk. apply IH in Hk. lia.
Qed.

Lemma concat_slices lst step fuel i :
  (0 < step)%nat → (length lst - i ≤ fuel)%nat →
  concat ((λ j, slice lst j (j + step)) <$> range_from fuel i (length lst) step)
  = drop i lst.
Proof.
  intros Hstep. revert i.
  induction fuel as [|fuel IH]; intros i Hfuel; simpl.
  - by rewrite drop_ge by lia.
  - case_bool_decide as Hi; simpl.
    + rewrite IH by lia. unfold slice.
      replace (i + step - i)%nat with step by lia.
      rewrite <- (take_drop step (drop i lst)) at 2.
      by rewrite drop_drop.
    + by rewrite drop_ge by lia.
Qed.

Lemma length_slice lst i step :
  length (slice lst i (i + step)) = (step `min` (length lst - i))%nat.
Proof.
  unfold slice. rewrite length_take, length_drop.
  by replace (i + step - i)%nat with step by lia.
Qed.

End Divide.

(** C6. For a chunk size [n > 0], [divide] returns the consecutive slices of
    the list: the chunks concatenated give the list back, chunk number [k]
    is the [n] items from position [k * n] on, every chunk has between 1 and
    [n] items, every chunk but the last has exactly [n]; the empty list
    gives no chunk, and [divide [1..7] 3 = [[1,2,3],[4,5,6],[7]]]. *)
Theorem divide_consecutive_chunks {A} (lst : list A) (n : Z) :
  0 < n →
  ∃ chunks,
    divide lst n = Ok chunks ∧
    concat chunks = lst ∧
    (∀ k c, chunks !! k = Some c →
       c = take (Z.to_nat n) (drop (k * Z.to_nat n) lst) ∧
       (1 ≤ length c ≤ Z.to_nat n)%nat ∧
       (S k < length chunks → length c = Z.to_nat n)%nat) ∧
    divide (@nil A) n = Ok [] ∧
    divide [1; 2; 3; 4; 5; 6; 7] 3 = Ok [[1; 2; 3]; [4; 5; 6]; [7]].
Proof.
  intros Hn. unfold divide.
  rewrite !bool_decide_eq_false_2 by lia.
  set (step := Z.to_nat n). assert (0 < step)%nat as Hstep by lia.
  eexists. split; [done|]. split_and!; [| |done|done].
  - unfold range. rewrite concat_slices by lia. done.
  - intros k c Hc.
    apply list_lookup_fmap_Some_1 in Hc as (j & -> & Hj).
    unfold range in *. pose proof Hj as Hj'.
    apply range_from_lookup in Hj' as [-> Hlt]. simpl in *.
    split_and!.
    + unfold slice. f_equal. lia.
    + rewrite length_slice. lia.
    + rewrite length_slice. lia.
    + rewrite length_fmap. intros Hk.
      apply lookup_lt_is_Some_2 in Hk as [j' Hj'].
      apply range_from_lookup in Hj' as [-> Hlt'].
      rewrite length_slice. lia.
Qed.

Lemma divide_consecutive_chunks_witness :
  ∃ chunks,
    divide ["a"; "b"; "c"; "d"; "e"] 2 = Ok chunks ∧
    concat chunks = ["a"; "b"; "c"; "d"; "e"] ∧
    (∀ k c, chunks !! k = Some c →
       c = take (Z.to_nat 2) (drop (k * Z.to_nat 2) ["a"; "b"; "c"; "d"; "e"]) ∧
       (1 ≤ length c ≤ Z.to_nat 2)%nat ∧
       (S k < length chunks → length c = Z.to_nat 2)%nat) ∧
    divide (@nil string) 2 = Ok [] ∧
    divide [1; 2; 3; 4; 5; 6; 7] 3 = Ok [[1; 2; 3]; [4; 5; 6]; [7]].
Proof. apply (divide_consecutive_chunks ["a"; "b"; "c"; "d"; "e"] 2). lia. Defined.

(** ** [int] and [str] *)

Lemma digit_of_pretty_N_char n :
  (n < 10)%N → digit_of (pretty_N_char n) = Some (Z.of_N n).
Proof.
  intros Hn.
  assert (n = 0 ∨ n = 1 ∨ n = 2 ∨ n = 3 ∨ n = 4 ∨ n = 5 ∨ n = 6 ∨ n = 7
          ∨ n = 8 ∨ n = 9)%N as Hcases by lia.
  by repeat destruct Hcases as [->|Hcases]; try subst n.
Qed.

Lemma not_space_pretty_N_char n : is_space (pretty_N_char n) = false.
Proof. unfold pretty_N_char. by repeat case_match. Qed.

Lemma digits_value_pretty_N_go x s :
  (0 < x)%N →
  digits_value 0 false (pretty_N_go x s) = digits_value (Z.of_N x) true s.
Proof.
  revert s. induction (N.lt_wf_0 x) as [x _ IH]; intros s Hx.
  rewrite pretty_N_go_step by done.
  destruct (decide (x `div` 10 = 0)%N) as [Hq|Hq%N.neq_0_lt_0].
  - rewrite Hq, pretty_N_go_0. simpl.
    rewrite digit_of_pretty_N_char by (apply N.mod_lt; lia).
    f_equal. pose proof (N.div_mod x 10). lia.
  - rewrite IH by (done || apply N.div_lt; lia). simpl.
    rewrite digit_of_pretty_N_char by (apply N.mod_lt; lia).
    f_equal. pose proof (N.div_mod x 10). lia.
Qed.

Lemma rstrip_no_space s :
  Forall (λ c, is_space c = false) (chars s) → rstrip s = s.
Proof.
  induction s as [|c s IH]; simpl; [done|].
  intros Hs. apply Forall_cons in Hs as [Hc Hs].
  rewrite IH by done. rewrite Hc. by destruct s.
Qed.

Lemma strip_no_space s :
  Forall (λ c, is_space c = false) (chars s) → strip s = s.
Proof.
  intros Hs. unfold strip.
  assert (lstrip s = s) as ->; [|by apply rstrip_no_space].
  destruct s as [|c s]; simpl; [done|].
  apply Forall_cons in Hs as [-> _]. done.
Qed.

Lemma no_space_pretty_N_go x s :
  Forall (λ c, is_space c = false) (chars s) →
  Forall (λ c, is_space c = false) (chars (pretty_N_go x s)).
Proof.
  revert s. induction (N.lt_wf_0 x) as [x _ IH]; intros s Hs.
  assert (x = 0 ∨ 0 < x)%N as [->|Hx] by lia; [done|].
  rewrite pretty_N_go_step by done.
  apply IH; [apply N.div_lt; lia|].
  simpl. apply Forall_cons. split; [apply not_space_pretty_N_char|done].
Qed.

Lemma digits_value_first c t v :
  digits_value 0 false (String c t) = Some v →
  c ≠ "-"%char ∧ c ≠ "+"%char.
Proof.
  simpl. destruct (digit_of c) eqn:Hc.
  - intros _. split; intros ->; discriminate.
  - by rewrite andb_false_r.
Qed.

Lemma int_of_string_unsigned t v :
  strip t = t → digits_value 0 false t = Some v → int_of_string t = Some v.
Proof.
  intros Ht Hv. unfold int_of_string. rewrite Ht.
  destruct t as [|c t]; [done|].
  destruct (digits_value_first _ _ _ Hv).
  by rewrite !bool_decide_eq_false_2.
Qed.

Lemma int_of_string_minus t v :
  strip (String "-" t) = String "-" t → digits_value 0 false t = Some v →
  int_of_string (String "-" t) = Some (- v).
Proof.
  intros Ht Hv. unfold int_of_string. rewrite Ht.
  rewrite bool_decide_eq_true_2 by done. by rewrite Hv.
Qed.

Lemma digits_value_pretty_pos (p : positive) :
  digits_value 0 false (pretty_N_go (N.pos p) "") = Some (Z.pos p).
Proof. by rewrite digits_value_pretty_N_go. Qed.

(** [int(str(z))] is [z]. *)
Lemma int_of_string_pretty (z : Z) : int_of_string (pretty z) = Some z.
Proof.
  destruct z as [|p|p]; [done| |].
  - apply int_of_string_unsigned; [|apply digits_value_pretty_pos].
    apply strip_no_space. by apply no_space_pretty_N_go.
  - apply (int_of_string_minus _ (Z.pos p)); [|apply digits_value_pretty_pos].
    apply strip_no_space. simpl. apply Forall_cons.
    split; [done|by apply no_space_pretty_N_go].
Qed.





(** ** [int] on text: the numerals *)















(** ** The loops and the list object *)

Section Frame.
Context {World : Type}.
Implicit Types (σ : state World) (l : loc).

Lemma only_changes_refl l σ : only_changes l σ σ.
Proof. by repeat split. Qed.

Lemma only_changes_trans l σ1 σ2 σ3 :
  only_changes l σ1 σ2 → only_changes l σ2 σ3 → only_changes l σ1 σ3.
Proof.
  intros (?&?&?&H12) (?&?&?&H23). repeat split; try congruence.
  intros l' Hl'. by rewrite H23, H12.
Qed.

Lemma write_only_changes l v σ :
  only_changes l σ (write l v σ).2 ∧ heap (write l v σ).2 !!! l = v.
Proof.
  split; [repeat split|]; simpl.
  - intros l' Hl'. by rewrite lookup_insert_ne.
  - by rewrite lookup_total_insert_eq.
Qed.

Lemma create_stocks_loop_run watch_remnants l stocks σ :
  ∃ σ',
    create_stocks_loop watch_remnants l stocks σ
    = (outcome_of (stocks_of_rows watch_remnants (heap σ !!! l) stocks).1, σ') ∧
    only_changes l σ σ' ∧
    heap σ' !!! l = (stocks_of_rows watch_remnants (heap σ !!! l) stocks).2.
Proof.
  revert stocks σ.
  induction watch_remnants as [|watch rest IH]; intros stocks σ; simpl.
  { exists σ. by split_and!; [|apply only_changes_refl|]. }
  unfold mbind, M_bind, read at 1. simpl.
  case_bool_decide as Hin; [|apply IH].
  destruct (stock_of watch) as [stock|e]; simpl.
  2:{ exists σ. by split_and!; [|apply only_changes_refl|]. }
  unfold list_remove, mbind, M_bind, read. simpl.
  destruct (remove_first (sku watch) (heap σ !!! l)) as [ids'|] eqn:Hrm; simpl.
  2:{ exists σ. by split_and!; [|apply only_changes_refl|]. }
  destruct (write_only_changes l ids' σ) as [Hframe Hl].
  destruct (IH (stocks ++ [Stock.make (sku watch) stock]) (write l ids' σ).2)
    as (σ' & Hrun & Hframe' & Hl').
  rewrite Hl in Hrun, Hl'.
  exists σ'. split_and!; [done| |done].
  by eapply only_changes_trans.
Qed.

Lemma create_prices_loop_run watch_remnants l prices σ :
  create_prices_loop watch_remnants l prices σ
  = (outcome_of (prices_of_rows watch_remnants (heap σ !!! l) prices), σ).
Proof.
  revert prices.
  induction watch_remnants as [|watch rest IH]; intros prices; simpl; [done|].
  unfold mbind, M_bind, read at 1. simpl.
  case_bool_decide as Hin; [|apply IH].
  destruct (price_conversion_of _) as [converted|e]; simpl; [|done].
  apply IH.
Qed.

End Frame.

(** ** [list.remove] *)

(** [remove_first] takes out the first occurrence and nothing else. *)
Lemma remove_first_Some x ids ids' :
  remove_first x ids = Some ids' ↔
  ∃ before after, ids = before ++ x :: after ∧ (x ∉ before) ∧
                  ids' = before ++ after.
Proof.
  revert ids'. induction ids as [|y ids IH]; intros ids'; simpl.
  { split; [done|]. intros (before & after & Heq & _). by destruct before. }
  case_bool_decide as Hy.
  - subst y. split.
    + intros [= <-]. exists [], ids. by split_and!; [|apply not_elem_of_nil|].
    + intros ([|z before] & after & Heq & Hnot & ->); simplify_eq/=; [done|].
      by apply not_elem_of_cons in Hnot as [? _].
  - rewrite fmap_Some. split.
    + intros (rest & Hrest & ->).
      apply IH in Hrest as (before & after & -> & Hnot & ->).
      exists (y :: before), after. split_and!; [done| |done].
      apply not_elem_of_cons. split; [congruence|done].
    + intros ([|z before] & after & Heq & Hnot & ->); simplify_eq/=.
      apply not_elem_of_cons in Hnot as [_ Hnot].
      exists (before ++ after). split; [|done]. apply IH. by exists before, after.
Qed.

Lemma remove_first_elem_of x ids :
  x ∈ ids → ∃ ids', remove_first x ids = Some ids'.
Proof.
  induction 1 as [|y z ids _ [ids' IH]]; simpl.
  - rewrite bool_decide_eq_true_2 by done. by eexists.
  - case_bool_decide; [by eexists|]. rewrite IH. by eexists.
Qed.

Lemma remove_first_Permutation x ids ids' :
  remove_first x ids = Some ids' → ids ≡ₚ x :: ids'.
Proof.
  intros (before & after & -> & _ & ->)%remove_first_Some.
  by rewrite Permutation_middle.
Qed.

Lemma remove_first_sublist x ids ids' :
  remove_first x ids = Some ids' → ids' `sublist_of` ids.
Proof.
  intros (before & after & -> & _ & ->)%remove_first_Some.
  apply sublist_app; [done|]. by apply sublist_cons.
Qed.

(** ** The first loop of [create_stocks] on the list contents *)

Lemma stocks_of_rows_app before rest ids stocks :
  stocks_of_rows (before ++ rest) ids stocks
  = match stocks_of_rows before ids stocks with
    | (Ok stocks', ids') => stocks_of_rows rest ids' stocks'
    | (Err e, ids') => (Err e, ids')
    end.
Proof.
  revert ids stocks. induction before as [|watch before IH]; intros ids stocks;
    simpl; [done|].
  case_bool_decide; [|apply IH].
  destruct (stock_of watch); [|done].
  destruct (remove_first _ _); [apply IH|done].
Qed.

Lemma stocks_of_rows_Ok watch_remnants ids stocks out ids' :
  stocks_of_rows watch_remnants ids stocks = (Ok out, ids') →
  ∃ matched entries,
    out = stocks ++ entries ∧
    matched `sublist_of` watch_remnants ∧
    Forall2 emits matched entries ∧
    ids ≡ₚ (Stock.offer_id <$> entries) ++ ids' ∧
    ids' `sublist_of` ids.
Proof.
  revert ids stocks.
  induction watch_remnants as [|watch rest IH]; intros ids stocks; simpl.
  { intros [= <- <-]. exists [], []. rewrite app_nil_r.
    by split_and!; [|constructor|constructor| |]. }
  case_bool_decide as Hin.
  - destruct (stock_of watch) as [stock|] eqn:Hstock; [|done].
    destruct (remove_first _ _) as [ids1|] eqn:Hrm; [|done].
    intros (matched & entries & -> & Hsub & Hemit & Hperm & Hsub')%IH.
    exists (watch :: matched), (Stock.make (sku watch) stock :: entries).
    split_and!.
    + by rewrite <- app_assoc.
    + by apply sublist_skip.
    + by constructor.
    + simpl. rewrite <- Hperm. by apply remove_first_Permutation.
    + etrans; [done|]. by eapply remove_first_sublist.
  - intros (matched & entries & -> & Hsub & Hemit & Hperm & Hsub')%IH.
    exists matched, entries. split_and!; [done| |done..].
    by apply sublist_cons.
Qed.

(** With a duplicate-free list, no row finds its SKU in what the loop leaves
    behind. *)
Lemma stocks_of_rows_NoDup watch_remnants ids stocks out ids' :
  NoDup ids →
  stocks_of_rows watch_remnants ids stocks = (Ok out, ids') →
  ∀ watch, watch ∈ watch_remnants → sku watch ∉ ids'.
Proof.
  revert ids stocks.
  induction watch_remnants as [|watch rest IH]; intros ids stocks Hnd; simpl.
  { intros _ w Hw. by apply elem_of_nil in Hw. }
  case_bool_decide as Hin.
  - destruct (stock_of watch) as [stock|] eqn:Hstock; [|done].
    destruct (remove_first _ _) as [ids1|] eqn:Hrm; [|done].
    intros Hrun w Hw.
    pose proof (remove_first_Permutation _ _ _ Hrm) as Hperm.
    rewrite Hperm in Hnd. apply NoDup_cons in Hnd as [Hnot Hnd1].
    apply elem_of_cons in Hw as [->|Hw]; [|by eapply IH].
    apply stocks_of_rows_Ok in Hrun as (_ & _ & _ & _ & _ & _ & Hsub).
    intros Hin'. apply Hnot. by eapply sublist_subseteq.
  - intros Hrun w Hw.
    apply elem_of_cons in Hw as [->|Hw]; [|by eapply IH].
    apply stocks_of_rows_Ok in Hrun as (_ & _ & _ & _ & _ & _ & Hsub).
    intros Hin'. apply Hin. by eapply sublist_subseteq.
Qed.

(** ** [create_stocks]: the stock policy *)

Section Stocks.
Context {World : Type}.
Implicit Types (σ : state World) (l : loc) (watch : dict).


(** One turn of the loop on a row whose SKU is in the list. *)
Lemma create_stocks_loop_matched watch rest l stocks σ :
  sku watch ∈ heap σ !!! l →
  create_stocks_loop (watch :: rest) l stocks σ
  = match stock_of watch, remove_first (sku watch) (heap σ !!! l) with
    | Ok stock, Some ids' =>
        create_stocks_loop rest l
          (stocks ++ [Stock.make (sku watch) stock]) (write l ids' σ).2
    | Ok _, None => (Raise ValueError, σ)
    | Err e, _ => (Raise e, σ)
    end.
Proof.
  intros Hin. simpl. unfold mbind, M_bind, read at 1. simpl.
  rewrite bool_decide_eq_true_2 by done.
  destruct (stock_of watch); simpl; [|done].
  unfold list_remove, mbind, M_bind, read. simpl.
  by destruct (remove_first _ _).
Qed.


End Stocks.


(** ** [create_stocks]: the output *)

Lemma filter_eq_NoDup (x : string) (ids : list string) :
  NoDup ids → x ∈ ids → length (filter (λ y, y = x) ids) = 1%nat.
Proof.
  induction 1 as [|y ids Hy Hnd IH]; intros Hx.
  { by apply elem_of_nil in Hx. }
  destruct (decide (y = x)) as [->|Hne].
  - rewrite filter_cons_True by done. simpl. f_equal.
    destruct (filter (λ y, y = x) ids) as [|z zs] eqn:Hf; [done|].
    assert (z ∈ filter (λ y, y = x) ids) as Hz by (rewrite Hf; left).
    by apply list_elem_of_filter in Hz as [-> Hz].
  - rewrite filter_cons_False by done. apply IH.
    by apply elem_of_cons in Hx as [->|Hx].
Qed.

(** *** Matching by counting *)

Lemma drop_firsts_ext n m ids :
  (∀ x, x ∈ ids → n x = m x) → drop_firsts n ids = drop_firsts m ids.
Proof.
  revert n m. induction ids as [|y ids IH]; intros n m Hnm; simpl; [done|].
  rewrite <- (Hnm y) by left.
  destruct (n y) eqn:Hy.
  - f_equal. apply IH. intros x Hx. apply Hnm. by right.
  - apply IH. intros x Hx. unfold one_less.
    rewrite (Hnm x) by (by right). done.
Qed.

Lemma one_more_one_less n x y z :
  n y ≠ 0%nat → one_less (one_more n x) y z = one_more (one_less n y) x z.
Proof.
  unfold one_less, one_more. intros Hy.
  repeat case_bool_decide; subst; try done; lia.
Qed.

Lemma one_less_one_more n x z : one_less (one_more n x) x z = n z.
Proof. unfold one_less, one_more. by repeat case_bool_decide. Qed.

(** A SKU is left in the list when fewer copies of it went than there
    were. *)
Lemma elem_of_drop_firsts x n ids :
  x ∈ drop_firsts n ids ↔ (n x < sku_count ids x)%nat.
Proof.
  unfold sku_count. revert n.
  induction ids as [|y ids IH]; intros n; simpl.
  { rewrite elem_of_nil. lia. }
  destruct (decide (y = x)) as [->|Hne].
  - rewrite filter_cons_True by done. simpl.
    destruct (n x) eqn:Hx.
    + rewrite elem_of_cons. split; [lia|by left].
    + rewrite IH. unfold one_less. rewrite bool_decide_eq_true_2 by done.
      rewrite Hx. simpl. lia.
  - rewrite filter_cons_False by done.
    destruct (n y) eqn:Hy.
    + rewrite elem_of_cons, IH. split; [|by right].
      by intros [->|?].
    + rewrite IH. unfold one_less. by rewrite bool_decide_eq_false_2.
Qed.

(** [list.remove] takes the first copy that is left. *)
Lemma remove_first_drop_firsts x n ids :
  x ∈ drop_firsts n ids →
  remove_first x (drop_firsts n ids) = Some (drop_firsts (one_more n x) ids).
Proof.
  revert n. induction ids as [|y ids IH]; intros n; simpl.
  { by intros ?%elem_of_nil. }
  destruct (n y) eqn:Hy.
  - destruct (decide (y = x)) as [->|Hne].
    + intros _. cbn [remove_first].
      rewrite bool_decide_eq_true_2 by done.
      assert (one_more n x x = S 0) as ->.
      { unfold one_more. by rewrite bool_decide_eq_true_2, Hy. }
      f_equal. apply drop_firsts_ext. intros z _.
      by rewrite one_less_one_more.
    + intros [?|Hin]%elem_of_cons; [done|]. cbn [remove_first].
      rewrite bool_decide_eq_false_2 by done.
      rewrite IH by done.
      assert (one_more n x y = 0%nat) as ->; [|done].
      unfold one_more. by rewrite bool_decide_eq_false_2.
  - intros Hin. rewrite IH by done. f_equal.
    assert (one_more n x y ≠ 0%nat) as Hy'.
    { unfold one_more. case_bool_decide; lia. }
    destruct (one_more n x y) eqn:Hy''; [done|].
    apply drop_firsts_ext. intros z _.
    symmetry. apply one_more_one_less. lia.
Qed.

Lemma drop_firsts_one_more x n ids :
  x ∉ drop_firsts n ids → drop_firsts (one_more n x) ids = drop_firsts n ids.
Proof.
  revert n. induction ids as [|y ids IH]; intros n; simpl; [done|].
  destruct (n y) eqn:Hy.
  - intros [Hne Hin]%not_elem_of_cons.
    assert (one_more n x y = 0%nat) as ->.
    { unfold one_more. by rewrite bool_decide_eq_false_2. }
    f_equal. by apply IH.
  - intros Hin.
    assert (one_more n x y ≠ 0%nat) as Hy'.
    { unfold one_more. case_bool_decide; lia. }
    destruct (one_more n x y) eqn:Hy''; [done|].
    rewrite <- (IH _ Hin).
    apply drop_firsts_ext. intros z _. apply one_more_one_less. lia.
Qed.

Lemma rows_count_snoc earlier watch x :
  rows_count (earlier ++ [watch]) x
  = one_more (rows_count earlier) (sku watch) x.
Proof.
  unfold rows_count, one_more. rewrite filter_app, length_app.
  destruct (decide (sku watch = x)) as [Heq|Hne].
  - rewrite filter_cons_True by done.
    rewrite bool_decide_eq_true_2 by done. simpl. lia.
  - rewrite filter_cons_False by done.
    rewrite bool_decide_eq_false_2 by done. simpl. lia.
Qed.

Lemma rows_count_0 rows x :
  rows_count rows x = 0%nat ↔ x ∉ (λ watch, sku watch) <$> rows.
Proof.
  unfold rows_count. induction rows as [|watch rows IH]; simpl.
  { split; [intros _; apply not_elem_of_nil|done]. }
  rewrite not_elem_of_cons, <- IH.
  destruct (decide (sku watch = x)) as [Heq|Hne].
  - rewrite filter_cons_True by done. simpl. split; [done|]. by intros [].
  - rewrite filter_cons_False by done. split; [done|]. by intros [_ ?].
Qed.

Lemma drop_firsts_none n ids :
  (∀ x, n x = 0%nat) → drop_firsts n ids = ids.
Proof.
  intros Hn. induction ids as [|y ids IH]; simpl; [done|].
  rewrite Hn. by f_equal.
Qed.

Lemma sku_count_pos ids x : (0 < sku_count ids x)%nat ↔ x ∈ ids.
Proof.
  rewrite <- (elem_of_drop_firsts x (λ _, 0%nat) ids).
  by rewrite drop_firsts_none.
Qed.

(** With no SKU listed twice, the SKUs left are those that no row
    carries. *)
Lemma unmatched_skus_NoDup rows ids :
  NoDup ids →
  unmatched_skus rows ids
  = filter (λ x, x ∉ (λ watch, sku watch) <$> rows) ids.
Proof.
  unfold unmatched_skus. generalize (rows_count rows) (rows_count_0 rows).
  intros n Hn. induction 1 as [|y ids Hy Hnd IH]; simpl; [done|].
  destruct (n y) eqn:Hny.
  - rewrite filter_cons_True by (by apply Hn). by f_equal.
  - rewrite filter_cons_False by (rewrite <- Hn; lia).
    rewrite <- IH. apply drop_firsts_ext. intros x Hx.
    unfold one_less. rewrite bool_decide_eq_false_2; [done|].
    by intros ->.
Qed.

(** With no SKU on two rows, the rows that match are the rows whose SKU is
    in the list. *)
Lemma matched_rows_NoDup ids earlier rows :
  NoDup ((λ watch, sku watch) <$> earlier ++ rows) →
  matched_rows ids earlier rows = filter (λ watch, sku watch ∈ ids) rows.
Proof.
  revert earlier. induction rows as [|watch rows IH]; intros earlier Hnd;
    simpl; [done|].
  rewrite IH by (by rewrite <- app_assoc).
  rewrite fmap_app in Hnd. apply NoDup_app in Hnd as (_ & Hnot & _).
  assert (rows_count earlier (sku watch) = 0%nat) as ->.
  { apply rows_count_0. intros Hin. apply (Hnot _ Hin). simpl. by left. }
  case_bool_decide as Hc.
  - rewrite filter_cons_True; [done|]. by apply sku_count_pos.
  - rewrite filter_cons_False; [done|]. by rewrite <- sku_count_pos.
Qed.

Lemma matched_rows_sublist ids earlier rows :
  matched_rows ids earlier rows `sublist_of` rows.
Proof.
  revert earlier. induction rows as [|watch rows IH]; intros earlier; simpl;
    [done|].
  case_bool_decide; [by apply sublist_skip|by apply sublist_cons].
Qed.

(** The first loop of [create_stocks], told by counting. *)
Lemma stocks_of_rows_matched ids rest : ∀ earlier acc out ids',
  stocks_of_rows rest (drop_firsts (rows_count earlier) ids) acc
  = (Ok out, ids') →
  ∃ entries,
    out = acc ++ entries ∧
    Forall2 emits (matched_rows ids earlier rest) entries ∧
    ids' = unmatched_skus (earlier ++ rest) ids.
Proof.
  induction rest as [|watch rest IH]; intros earlier acc out ids'; simpl.
  { intros [= <- <-]. exists []. rewrite !app_nil_r. by split_and!. }
  assert (∀ ids1 acc1,
    ids1 = drop_firsts (rows_count (earlier ++ [watch])) ids →
    stocks_of_rows rest ids1 acc1 = (Ok out, ids') →
    ∃ entries, out = acc1 ++ entries ∧
      Forall2 emits (matched_rows ids (earlier ++ [watch]) rest) entries ∧
      ids' = unmatched_skus (earlier ++ watch :: rest) ids) as Hnext.
  { intros ids1 acc1 -> Hrun.
    apply IH in Hrun as (entries & -> & Hemit & ->).
    exists entries. by rewrite <- app_assoc. }
  case_bool_decide as Hin.
  - rewrite bool_decide_eq_true_2 by (by apply elem_of_drop_firsts).
    destruct (stock_of watch) as [stock|e] eqn:Hstock; [|done].
    rewrite remove_first_drop_firsts by done.
    intros Hrun. apply Hnext in Hrun as (entries & -> & Hemit & ->).
    + exists (Stock.make (sku watch) stock :: entries).
      rewrite <- !app_assoc. split_and!; [done| |done].
      by constructor.
    + apply drop_firsts_ext. intros x _. symmetry. apply rows_count_snoc.
  - rewrite bool_decide_eq_false_2 by (by rewrite <- elem_of_drop_firsts).
    apply Hnext. rewrite <- (drop_firsts_one_more _ _ _ Hin).
    apply drop_firsts_ext. intros x _. symmetry. apply rows_count_snoc.
Qed.

Section StocksOutput.
Context {World : Type}.
Implicit Types (σ : state World) (l : loc) (watch : dict).

Lemma create_stocks_run watch_remnants l σ :
  ∃ σ',
    create_stocks watch_remnants l σ
    = (match stocks_of_rows watch_remnants (heap σ !!! l) [] with
       | (Ok stocks, ids') => Return (stocks ++ (zero_stock <$> ids'))
       | (Err e, _) => Raise e
       end, σ') ∧
    only_changes l σ σ' ∧
    heap σ' !!! l = (stocks_of_rows watch_remnants (heap σ !!! l) []).2.
Proof.
  destruct (create_stocks_loop_run watch_remnants l [] σ)
    as (σ' & Hrun & Hframe & Hl).
  exists σ'. split_and!; [|done..].
  unfold create_stocks, mbind, M_bind. rewrite Hrun.
  destruct (stocks_of_rows _ _ _) as [[stocks|e] ids']; simpl in *; [|done].
  unfold read. simpl. by rewrite Hl.
Qed.

(** C4, as amended.  When [create_stocks] returns, the SKUs of its output
    are the SKUs of the list it was given, each as often as it occurs there,
    so exactly once when the list has no duplicates; an output entry whose
    SKU belongs to no row has stock 0.  The output is the entries of all the
    rows that match, in the order of the rows, followed by one zero entry
    for each SKU that is left, in the order of the list; the SKUs left are
    also what the list object holds after the call.  A row matches when
    fewer rows before it carry its SKU than the list holds copies of that
    SKU, and as many of the first copies of a SKU are gone from the list as
    there are rows that carry it.  So when no two rows share a SKU the rows
    that match are all the rows whose SKU is in the list, and when no SKU is
    listed twice the SKUs left are all the SKUs that no row carries. *)
Theorem create_stocks_output watch_remnants l σ out σ' :
  create_stocks watch_remnants l σ = (Return out, σ') →
  Stock.offer_id <$> out ≡ₚ heap σ !!! l ∧
  (NoDup (heap σ !!! l) → every_sku_exactly_once watch_remnants l σ) ∧
  (∀ entry, entry ∈ out →
     (∀ watch, watch ∈ watch_remnants → sku watch ≠ Stock.offer_id entry) →
     Stock.stock entry = 0) ∧
  (∃ entries,
     out = entries
           ++ (zero_stock <$> unmatched_skus watch_remnants (heap σ !!! l)) ∧
     Forall2 emits (matched_rows (heap σ !!! l) [] watch_remnants) entries) ∧
  heap σ' !!! l = unmatched_skus watch_remnants (heap σ !!! l) ∧
  (∀ x, x ∈ unmatched_skus watch_remnants (heap σ !!! l)
        ↔ (rows_count watch_remnants x < sku_count (heap σ !!! l) x)%nat) ∧
  (NoDup ((λ watch, sku watch) <$> watch_remnants) →
     matched_rows (heap σ !!! l) [] watch_remnants
     = filter (λ watch, sku watch ∈ heap σ !!! l) watch_remnants) ∧
  (NoDup (heap σ !!! l) →
     unmatched_skus watch_remnants (heap σ !!! l)
     = filter (λ x, x ∉ (λ watch, sku watch) <$> watch_remnants)
         (heap σ !!! l)).
Proof.
  assert (∀ out σ', create_stocks watch_remnants l σ = (Return out, σ') →
    ∃ entries,
      out = entries
            ++ (zero_stock <$> unmatched_skus watch_remnants (heap σ !!! l)) ∧
      Forall2 emits (matched_rows (heap σ !!! l) [] watch_remnants) entries ∧
      heap σ' !!! l = unmatched_skus watch_remnants (heap σ !!! l) ∧
      heap σ !!! l
      ≡ₚ (Stock.offer_id <$> entries)
         ++ unmatched_skus watch_remnants (heap σ !!! l)) as Hshape.
  { clear out σ'. intros out σ' Hrun.
    destruct (create_stocks_run watch_remnants l σ) as (σ'' & Hrun' & _ & Hl).
    rewrite Hrun in Hrun'.
    destruct (stocks_of_rows _ _ _) as [[stocks|e] ids'] eqn:Hrows;
      [|done].
    injection Hrun' as -> <-. simpl in Hl. rewrite Hl.
    pose proof Hrows as Hcount.
    rewrite <- (drop_firsts_none (rows_count []) (heap σ !!! l)) in Hcount
      at 1 by done.
    apply stocks_of_rows_matched in Hcount as (entries & Hout & Hemit & ->).
    simpl in Hout. subst stocks.
    apply stocks_of_rows_Ok in Hrows
      as (matched & entries' & Hentries & _ & _ & Hperm & _).
    simpl in Hentries. subst entries'.
    by exists entries. }
  assert (∀ out σ', create_stocks watch_remnants l σ = (Return out, σ') →
    Stock.offer_id <$> out ≡ₚ heap σ !!! l) as Hperm.
  { clear out σ'. intros out σ' Hrun.
    destruct (Hshape _ _ Hrun) as (entries & -> & _ & _ & Hp).
    rewrite fmap_app, <- list_fmap_compose.
    etrans; [|symmetry; exact Hp]. f_equiv. by rewrite list_fmap_id. }
  intros Hrun. split_and!.
  - by eapply Hperm.
  - intros Hnd out' σ'' Hrun' x Hx.
    rewrite (Hperm _ _ Hrun'). by apply filter_eq_NoDup.
  - intros entry Hentry Hnone.
    destruct (Hshape _ _ Hrun) as (entries & -> & Hemit & _).
    apply elem_of_app in Hentry as [Hentry|Hentry].
    + apply list_elem_of_lookup in Hentry as [i Hi].
      destruct (Forall2_lookup_r _ _ _ _ _ Hemit Hi) as (watch & Hw & Hid & _).
      destruct (Hnone watch); [|done].
      eapply sublist_subseteq; [apply matched_rows_sublist|].
      by eapply list_elem_of_lookup_2.
    + by apply list_elem_of_fmap in Hentry as (x & -> & _).
  - destruct (Hshape _ _ Hrun) as (entries & -> & Hemit & _).
    by exists entries.
  - by destruct (Hshape _ _ Hrun) as (entries & _ & _ & Hl & _).
  - intros x. apply elem_of_drop_firsts.
  - apply (matched_rows_NoDup _ []).
  - apply unmatched_skus_NoDup.
Qed.

End StocksOutput.

(** With the SKU "a" listed twice, the output carries it twice. *)
Lemma create_stocks_duplicate_sku :
  ¬ every_sku_exactly_once [] 0%nat
      {| heap := {[ 0%nat := ["a"; "a"] ]};
         world := (); trace := []; stdout := [] |}.
Proof.
  intros Hclaim.
  specialize (Hclaim [zero_stock "a"; zero_stock "a"] _ eq_refl "a").
  simpl in Hclaim. unfold lookup_total, map_lookup_total in Hclaim.
  rewrite lookup_singleton_eq in Hclaim. simpl in Hclaim.
  specialize (Hclaim ltac:(set_solver)). vm_compute in Hclaim. discriminate.
Qed.

Lemma create_stocks_output_witness :
  let σ := {| heap := {[ 0%nat := ["126"; "124"; "123"] ]};
              world := (); trace := []; stdout := [] |} in
  let watch_remnants :=
    [row (VStr "123") (VStr ">10") VNone; row (VStr "125") (VStr "5") VNone;
     row (VStr "124") (VStr "1") VNone] in
  let out := [Stock.make "123" 100; Stock.make "124" 0; Stock.make "126" 0] in
  create_stocks watch_remnants 0%nat σ = (Return out, (write 0%nat ["126"] σ).2) ∧
  Stock.offer_id <$> out ≡ₚ ["126"; "124"; "123"] ∧
  every_sku_exactly_once watch_remnants 0%nat σ ∧
  (∃ entries,
     out = entries
           ++ (zero_stock <$> unmatched_skus watch_remnants (heap σ !!! 0%nat)) ∧
     Forall2 emits (matched_rows (heap σ !!! 0%nat) [] watch_remnants)
       entries) ∧
  matched_rows (heap σ !!! 0%nat) [] watch_remnants
  = [row (VStr "123") (VStr ">10") VNone; row (VStr "124") (VStr "1") VNone] ∧
  unmatched_skus watch_remnants (heap σ !!! 0%nat) = ["126"].
Proof.
  intros σ watch_remnants out.
  assert (create_stocks watch_remnants 0%nat σ
          = (Return out, (write 0%nat ["126"] σ).2)) as Hrun.
  { unfold create_stocks, mbind, M_bind. simpl.
    unfold mbind, M_bind, read, list_remove. by vm_compute. }
  destruct (create_stocks_output watch_remnants 0%nat σ out _ Hrun)
    as (Hperm & Honce & _ & Hshape & _).
  split_and!; [done|exact Hperm| |exact Hshape|by vm_compute..].
  apply Honce. simpl. unfold lookup_total, map_lookup_total.
  rewrite lookup_singleton_eq. simpl.
  apply (bool_decide_unpack _). by vm_compute.
Defined.

(** C2.  The code run on one matching row: [create_stocks] has no working
    copy, it removes the SKU from the very list object it was given, and the
    caller's list, ["123"] before the call, is empty after it. *)
Theorem create_stocks_changes_callers_list :
  let σ := {| heap := {[ 0%nat := ["123"] ]};
              world := (); trace := []; stdout := [] |} in
  let watch_remnants := [row (VStr "123") (VStr ">10") (VStr "5000.00")] in
  heap σ !!! 0%nat = ["123"] ∧
  (create_stocks watch_remnants 0%nat σ).1 = Return [Stock.make "123" 100] ∧
  heap (create_stocks watch_remnants 0%nat σ).2 !!! 0%nat = [].
Proof. by vm_compute. Qed.

(** ** [create_prices] *)

Lemma prices_of_rows_Ok watch_remnants ids prices out :
  prices_of_rows watch_remnants ids prices = Ok out →
  ∃ updates, out = prices ++ updates ∧
    Forall2 priced (filter (λ watch, sku watch ∈ ids) watch_remnants) updates.
Proof.
  revert prices. induction watch_remnants as [|watch rest IH]; intros prices;
    simpl.
  { intros [= <-]. exists []. by rewrite app_nil_r. }
  case_bool_decide as Hin.
  - rewrite filter_cons_True by done.
    destruct (dict_get watch "Цена") as [|text|] eqn:Hprice; simpl; try done.
    intros (updates & -> & Hall)%IH. eexists (_ :: updates).
    split; [by rewrite <- app_assoc|].
    constructor; [|done]. by exists text.
  - rewrite filter_cons_False by done. apply IH.
Qed.

Lemma prices_of_rows_total watch_remnants ids prices :
  Forall (λ watch, is_str (dict_get watch "Цена"))
         (filter (λ watch, sku watch ∈ ids) watch_remnants) →
  ∃ out, prices_of_rows watch_remnants ids prices = Ok out.
Proof.
  revert prices. induction watch_remnants as [|watch rest IH]; intros prices;
    simpl; [by eexists|].
  case_bool_decide as Hin.
  - rewrite filter_cons_True by done.
    intros [Htext Hrest]%Forall_cons.
    destruct (dict_get watch "Цена"); try done. simpl. by apply IH.
  - rewrite filter_cons_False by done. apply IH.
Qed.

(** C10. [create_prices] only tests membership and leaves the SKU list as it
    is.  When it returns, its output lists, in the order of the rows, one
    price update for every row whose SKU is in the list, rows that repeat a
    SKU included; each update carries that SKU, old price "0", currency
    "RUB", auto action "UNKNOWN", and as price the converted price text of
    its row.  It does return whenever the price cell of every such row is
    text. *)
Theorem create_prices_output {World} watch_remnants l (σ : state World) :
  let matched :=
    filter (λ watch, sku watch ∈ heap σ !!! l) watch_remnants in
  (∀ out σ', create_prices watch_remnants l σ = (Return out, σ') →
     σ' = σ ∧ Forall2 priced matched out) ∧
  (Forall (λ watch, is_str (dict_get watch "Цена")) matched →
   ∃ out, create_prices watch_remnants l σ = (Return out, σ)).
Proof.
  intros matched. unfold create_prices. rewrite create_prices_loop_run. split.
  - intros out σ' Hrun.
    destruct (prices_of_rows _ _ _) as [out'|] eqn:Hrows; [|done].
    injection Hrun as -> ->. split; [done|].
    by apply prices_of_rows_Ok in Hrows as (updates & -> & Hall).
  - intros Htext.
    destruct (prices_of_rows_total watch_remnants (heap σ !!! l) [] Htext)
      as [out ->].
    by exists out.
Qed.

Lemma create_prices_output_witness :
  let σ := {| heap := {[ 0%nat := ["123"; "124"] ]};
              world := (); trace := []; stdout := [] |} in
  let watch_remnants :=
    [row (VStr "123") (VStr ">10") (VStr "5000.00");
     row (VStr "124") (VStr "1") (VStr "7000.50");
     row (VStr "125") (VStr "5") (VStr "1200.00");
     row (VInt 124) VNone (VStr "1 299.90 RUB")] in
  ∃ out, create_prices watch_remnants 0%nat σ = (Return out, σ) ∧
    Price.price <$> out = ["5000"; "7000"; "1299"] ∧
    Forall2 priced
      (filter (λ watch, sku watch ∈ heap σ !!! 0%nat) watch_remnants) out.
Proof.
  intros σ watch_remnants.
  destruct (create_prices_output watch_remnants 0%nat σ) as [Hout Htotal].
  destruct Htotal as [out Hrun].
  { apply (bool_decide_unpack _). by vm_compute. }
  exists out. split_and!; [done| |by apply (Hout _ _ Hrun)].
  vm_compute in Hrun. by injection Hrun as <-.
Defined.

(** ** [get_offer_ids]: leaving the loop *)

Section Catalogue.
Context {World : Type} (net : network World).
Context (client_id seller_token : string).
Implicit Types (σ : state World) (product_list : list Product.t).

Lemma get_offer_ids_loop_Return fuel last_id product_list σ out σ' :
  get_offer_ids_loop net fuel last_id product_list client_id seller_token σ
  = (Return out, σ') ↔
  ∃ k cursor gathered σk some_prod,
    (k < fuel)%nat ∧
    continued net client_id seller_token k last_id product_list σ
    = Some (cursor, gathered, σk) ∧
    get_product_list net cursor client_id seller_token σk
    = (Return some_prod, σ') ∧
    out = gathered ++ Page.items some_prod ∧
    Page.total some_prod = Z.of_nat (length out).
Proof.
  revert last_id product_list σ.
  induction fuel as [|fuel IH]; intros last_id product_list σ; simpl.
  { split; [done|]. intros (k & ? & ? & ? & ? & ? & _). lia. }
  unfold mbind, M_bind.
  destruct (get_product_list net last_id client_id seller_token σ)
    as [[some_prod|e|] σ1] eqn:Hreply.
  - case_bool_decide as Htotal.
    + split.
      * intros [= <- <-]. exists 0%nat, last_id, product_list, σ, some_prod.
        split_and!; [lia|done..].
      * intros ([|k] & cursor & gathered & σk & page & _ & Hk & Hget & -> & Heq).
        -- simpl in Hk. injection Hk as <- <- <-.
           rewrite Hreply in Hget. by injection Hget as <- <-.
        -- simpl in Hk. rewrite Hreply in Hk.
           by rewrite bool_decide_eq_true_2 in Hk.
    + rewrite IH. split.
      * intros (k & cursor & gathered & σk & page & Hlt & Hk & Hrest).
        exists (S k), cursor, gathered, σk, page.
        split; [lia|]. split; [|done].
        simpl. rewrite Hreply. by rewrite bool_decide_eq_false_2.
      * intros ([|k] & cursor & gathered & σk & page & Hlt & Hk & Hget & -> & Heq).
        -- simpl in Hk. injection Hk as <- <- <-.
           rewrite Hreply in Hget. by injection Hget as <- <-.
        -- simpl in Hk. rewrite Hreply in Hk.
           rewrite bool_decide_eq_false_2 in Hk by done.
           exists k, cursor, gathered, σk, page. split_and!; [lia|done..].
  - split; [done|].
    intros ([|k] & cursor & gathered & σk & page & _ & Hk & Hget & _).
    + simpl in Hk. injection Hk as <- <- <-. by rewrite Hreply in Hget.
    + simpl in Hk. by rewrite Hreply in Hk.
  - split; [done|].
    intros ([|k] & cursor & gathered & σk & page & _ & Hk & Hget & _).
    + simpl in Hk. injection Hk as <- <- <-. by rewrite Hreply in Hget.
    + simpl in Hk. by rewrite Hreply in Hk.
Qed.

Lemma get_offer_ids_loop_Running fuel last_id product_list σ :
  (∀ k cursor gathered σk,
     continued net client_id seller_token k last_id product_list σ
     = Some (cursor, gathered, σk) →
     ∃ some_prod σ',
       get_product_list net cursor client_id seller_token σk
       = (Return some_prod, σ') ∧
       Page.total some_prod
       ≠ Z.of_nat (length (gathered ++ Page.items some_prod))) →
  (get_offer_ids_loop net fuel last_id product_list client_id seller_token σ).1
  = Running.
Proof.
  revert last_id product_list σ.
  induction fuel as [|fuel IH]; intros last_id product_list σ Hnever; simpl;
    [done|].
  destruct (Hnever 0%nat _ _ _ eq_refl) as (some_prod & σ' & Hreply & Hne).
  unfold mbind, M_bind. rewrite Hreply.
  rewrite bool_decide_eq_false_2 by done.
  apply IH. intros k cursor gathered σk Hk.
  apply (Hnever (S k)). simpl. rewrite Hreply.
  by rewrite bool_decide_eq_false_2.
Qed.

Lemma get_offer_ids_loop_Raise fuel last_id product_list σ k cursor gathered
    σk e σ' :
  (k < fuel)%nat →
  continued net client_id seller_token k last_id product_list σ
  = Some (cursor, gathered, σk) →
  get_product_list net cursor client_id seller_token σk = (Raise e, σ') →
  get_offer_ids_loop net fuel last_id product_list client_id seller_token σ
  = (Raise e, σ').
Proof.
  revert last_id product_list σ k.
  induction fuel as [|fuel IH]; intros last_id product_list σ k Hlt; [lia|].
  simpl. unfold mbind, M_bind. destruct k as [|k]; simpl.
  - intros [= <- <- <-] Hget. by rewrite Hget.
  - destruct (get_product_list net last_id client_id seller_token σ)
      as [[some_prod|e'|] σ1]; [|done..].
    case_bool_decide; [done|]. apply IH. lia.
Qed.

(** C7. [get_offer_ids] asks for page after page, each request carrying the
    cursor of the page before, and adds the items of every page to its list.
    It returns exactly when, after some number of turns that went on, a page
    arrives whose total equals the number of items gathered so far; the
    list it returns holds the SKUs of these items.  When every request is
    answered by a page whose total differs from the count, the loop is
    still running after any number of turns: no count of turns and no
    cursor that stands still ends it.  The only other way out is a request
    that raises, which passes its exception on. *)
Theorem get_offer_ids_returns_iff_total_reached σ :
  (∀ fuel l σ',
     get_offer_ids net fuel client_id seller_token σ = (Return l, σ') ↔
     ∃ k cursor gathered σk some_prod σ1,
       (k < fuel)%nat ∧
       continued net client_id seller_token k "" [] σ
       = Some (cursor, gathered, σk) ∧
       get_product_list net cursor client_id seller_token σk
       = (Return some_prod, σ1) ∧
       trace σ1 = trace σk ++ [ProductListRequest cursor client_id seller_token] ∧
       Page.total some_prod
       = Z.of_nat (length (gathered ++ Page.items some_prod)) ∧
       alloc (Product.offer_id <$> gathered ++ Page.items some_prod) σ1
       = (Return l, σ')) ∧
  ((∀ k cursor gathered σk,
      continued net client_id seller_token k "" [] σ
      = Some (cursor, gathered, σk) →
      ∃ some_prod σ',
        get_product_list net cursor client_id seller_token σk
        = (Return some_prod, σ') ∧
        Page.total some_prod
        ≠ Z.of_nat (length (gathered ++ Page.items some_prod))) →
   ∀ fuel, (get_offer_ids net fuel client_id seller_token σ).1 = Running) ∧
  (∀ fuel k cursor gathered σk e σ',
     (k < fuel)%nat →
     continued net client_id seller_token k "" [] σ
     = Some (cursor, gathered, σk) →
     get_product_list net cursor client_id seller_token σk = (Raise e, σ') →
     get_offer_ids net fuel client_id seller_token σ = (Raise e, σ')).
Proof.
  split_and!; cycle 2.
  { intros fuel k cursor gathered σk e σ' Hlt Hk Hget.
    unfold get_offer_ids, mbind, M_bind.
    by rewrite (get_offer_ids_loop_Raise _ _ _ _ _ _ _ _ _ _ Hlt Hk Hget). }
  - intros fuel l σ'. unfold get_offer_ids, mbind, M_bind. split.
    + destruct (get_offer_ids_loop _ _ _ _ _ _ _) as [[out|e|] σ1] eqn:Hloop;
        [|done..].
      apply get_offer_ids_loop_Return in Hloop
        as (k & cursor & gathered & σk & page & Hlt & Hk & Hget & -> & Heq).
      intros Halloc.
      exists k, cursor, gathered, σk, page, σ1. split_and!; try done.
      unfold get_product_list, request in Hget.
      destruct (product_list_reply _ _ _ _ _) as [[p|e] w]; simpl in Hget;
        [|done].
      by injection Hget as _ <-.
    + intros (k & cursor & gathered & σk & page & σ1 & Hlt & Hk & Hget & _
              & Heq & Halloc).
      assert (get_offer_ids_loop net fuel "" [] client_id seller_token σ
              = (Return (gathered ++ Page.items page), σ1)) as ->; [|done].
      apply get_offer_ids_loop_Return.
      by exists k, cursor, gathered, σk, page.
  - intros Hnever fuel. unfold get_offer_ids, mbind, M_bind.
    pose proof (get_offer_ids_loop_Running fuel "" [] σ Hnever) as Hrun.
    by destruct (get_offer_ids_loop _ _ _ _ _ _ _) as [[out|e|] σ1];
      simplify_eq/=.
Qed.

End Catalogue.

Lemma growing_never_reaches_total k cursor gathered σ σk :
  continued growing "c" "t" k "" [] σ = Some (cursor, gathered, σk) →
  ∃ some_prod σ',
    get_product_list growing cursor "c" "t" σk = (Return some_prod, σ') ∧
    Page.total some_prod ≠ Z.of_nat (length (gathered ++ Page.items some_prod)).
Proof.
  intros _. eexists _, _. split; [reflexivity|].
  simpl. rewrite length_app. simpl. lia.
Qed.

Lemma get_offer_ids_returns_iff_total_reached_witness :
  let σ := initial [Page.make [Product.make "123"] 2 "p1";
                    Page.make [Product.make "124"] 2 "p2"] in
  (∃ σ', get_offer_ids (scripted []) 2 "c" "t" σ = (Return 0%nat, σ') ∧
         heap σ' !!! 0%nat = ["123"; "124"]) ∧
  ∀ fuel, (get_offer_ids growing fuel "c" "t" (initial ())).1 = Running.
Proof.
  intros σ. split.
  - eexists. split.
    + apply (get_offer_ids_returns_iff_total_reached (scripted []) "c" "t" σ).
      exists 1%nat. do 5 eexists. split_and!; [lia|reflexivity..].
    + reflexivity.
  - apply (get_offer_ids_returns_iff_total_reached growing "c" "t"
             (initial ())).
    intros k cursor gathered σk. apply growing_never_reaches_total.
Defined.

(** ** What each step does to the state *)

Section Steps.
Context {World : Type} (net : network World).
Implicit Types (σ : state World) (l : loc).

Lemma request_run {A} ev (reply : World → result A * World) σ r σ' :
  request ev reply σ = (r, σ') →
  heap σ' = heap σ ∧ stdout σ' = stdout σ ∧ trace σ' = trace σ ++ [ev] ∧
  r ≠ Running.
Proof.
  unfold request. destruct (reply (world σ)) as [[a|e] w]; simpl;
    by intros [= <- <-].
Qed.

Lemma get_offer_ids_loop_run fuel last_id product_list client_id seller_token
    σ r σ' :
  get_offer_ids_loop net fuel last_id product_list client_id seller_token σ
  = (r, σ') →
  heap σ' = heap σ ∧ stdout σ' = stdout σ ∧
  ∃ lists, trace σ' = trace σ ++ lists ∧
           Forall is_product_list_request lists.
Proof.
  revert last_id product_list σ.
  induction fuel as [|fuel IH]; intros last_id product_list σ; simpl.
  { intros [= <- <-]. split_and!; [done..|]. exists []. by rewrite app_nil_r. }
  unfold mbind, M_bind.
  destruct (get_product_list _ _ _ _ _) as [r1 σ1] eqn:Hget.
  apply request_run in Hget as (Hheap & Hout & Htrace & Hrun).
  assert (∃ lists, trace σ1 = trace σ ++ lists ∧
                   Forall is_product_list_request lists) as Hone.
  { eexists. split; [done|]. repeat constructor. by eexists _, _, _. }
  destruct r1 as [some_prod|e|]; [|by intros [= <- <-]..].
  case_bool_decide; [by intros [= <- <-]|].
  intros (Hheap' & Hout' & lists & Htrace' & Hall)%IH.
  split_and!; [congruence..|].
  exists ([ProductListRequest last_id client_id seller_token] ++ lists).
  split; [by rewrite Htrace', Htrace, <- app_assoc|].
  apply Forall_app. split; [|done]. repeat constructor. by eexists _, _, _.
Qed.

Lemma get_offer_ids_run fuel client_id seller_token σ r σ' :
  get_offer_ids net fuel client_id seller_token σ = (r, σ') →
  stdout σ' = stdout σ ∧
  ∃ lists, trace σ' = trace σ ++ lists ∧
           Forall is_product_list_request lists.
Proof.
  unfold get_offer_ids, mbind, M_bind.
  destruct (get_offer_ids_loop _ _ _ _ _ _ _) as [r1 σ1] eqn:Hloop.
  apply get_offer_ids_loop_run in Hloop as (_ & Hout & lists & Htrace & Hall).
  destruct r1; intros [= <- <-]; simpl; eauto.
Qed.

(** Sending the chunks one by one: the requests that went out are the first
    chunks, in order; all of them when the loop returns. *)
Lemma for_each_request {A} (mk : A → event)
    (reply : A → World → result () * World) chunks σ r σ' :
  for_each chunks (λ chunk, request (mk chunk) (reply chunk)) σ = (r, σ') →
  heap σ' = heap σ ∧ stdout σ' = stdout σ ∧ r ≠ Running ∧
  ∃ sent, sent `prefix_of` chunks ∧
          trace σ' = trace σ ++ (mk <$> sent) ∧
          (r = Return () → sent = chunks).
Proof.
  revert σ. induction chunks as [|chunk chunks IH]; intros σ; simpl.
  { intros [= <- <-]. split_and!; [done..|]. exists [].
    by rewrite app_nil_r. }
  unfold mbind, M_bind.
  destruct (request _ _ _) as [r1 σ1] eqn:Hreq.
  apply request_run in Hreq as (Hheap & Hout & Htrace & Hrun).
  destruct r1 as [[]|e|]; [| |done].
  - intros (Hheap' & Hout' & Hrun' & sent & Hsent & Htrace' & Hall)%IH.
    split_and!; [congruence..|done|].
    exists (chunk :: sent). split_and!.
    + by apply prefix_cons.
    + by rewrite Htrace', Htrace, <- app_assoc.
    + intros ->. by rewrite Hall.
  - intros [= <- <-]. split_and!; [done..|].
    exists [chunk]. split_and!; [|done..].
    apply prefix_cons, prefix_nil.
Qed.

Lemma create_prices_nothing_matches watch_remnants l σ :
  (∀ watch, watch ∈ watch_remnants → sku watch ∉ heap σ !!! l) →
  create_prices watch_remnants l σ = (Return [], σ).
Proof.
  intros Hnone. unfold create_prices. rewrite create_prices_loop_run.
  generalize (@nil Price.t).
  induction watch_remnants as [|watch rest IH]; intros prices; simpl; [done|].
  rewrite bool_decide_eq_false_2 by (apply Hnone; left).
  apply IH. intros w Hw. apply Hnone. by right.
Qed.

End Steps.

(** ** [main]: the handlers *)

Lemma handle_main_except {World} (e : exn) (σ : state World) :
  handle main_except e σ = print (notice e) σ.
Proof. by destruct e. Qed.

(** C8. [main] has three [except] clauses, for a read timeout, a connection
    error and any other exception, in this order.  With both variables set,
    whatever the [try] block raises is caught: [main] prints the notice of
    the matching clause and returns, sending no further request; nothing
    raised inside the block leaves [main].  With [SELLER_TOKEN] or
    [CLIENT_ID] missing, [main] raises before the block is entered, having
    sent and printed nothing. *)
Theorem main_catches_three_cases {World} (net : network World) fuel environ
    (σ : state World) :
  (@main_except World).*1
  = [ClsReadTimeout; ClsConnectionError; ClsException] ∧
  notice ReadTimeout = [PStr "Превышено время ожидания..."] ∧
  notice ConnectionError = [PExn ConnectionError; PStr "Ошибка соединения"] ∧
  (∀ seller_token client_id,
     environ !! "SELLER_TOKEN" = Some seller_token →
     environ !! "CLIENT_ID" = Some client_id →
     match main_try net fuel client_id seller_token σ with
     | (Return (), σ') => main net fuel environ σ = (Return (), σ')
     | (Raise e, σ') =>
         main net fuel environ σ
         = (Return (),
            {| heap := heap σ'; world := world σ'; trace := trace σ';
               stdout := stdout σ' ++ [notice e] |})
     | (Running, σ') => main net fuel environ σ = (Running, σ')
     end) ∧
  (environ !! "SELLER_TOKEN" = None ∨ environ !! "CLIENT_ID" = None →
   main net fuel environ σ = (Raise EnvError, σ)).
Proof.
  split_and!; [done..| |].
  - intros seller_token client_id Htoken Hclient.
    unfold main, env_str, mbind, M_bind, try_except.
    rewrite Htoken, Hclient. simpl.
    destruct (main_try _ _ _ _ _) as [[[]|e|] σ']; [done| |done].
    exact (handle_main_except e σ').
  - unfold main, env_str, mbind, M_bind.
    intros [->| ->]; [done|]. by destruct (environ !! "SELLER_TOKEN").
Qed.

Lemma main_catches_three_cases_witness :
  let watch_remnants := [row (VStr "123") (VStr "many") (VStr "5000.00")] in
  let pages := [Page.make [Product.make "123"] 1 "p1"] in
  main (scripted watch_remnants) 3 credentials (initial pages)
  = (Return (),
     {| heap := {[ 0%nat := ["123"] ]}; world := [];
        trace := [ProductListRequest "" "client" "token"; RemnantsDownload];
        stdout := [[PExn ValueError; PStr "ERROR_2"]] |}) ∧
  main (scripted watch_remnants) 3 (delete "CLIENT_ID" credentials)
       (initial pages)
  = (Raise EnvError, initial pages).
Proof.
  intros watch_remnants pages.
  destruct (main_catches_three_cases (scripted watch_remnants) 3 credentials
              (initial pages)) as (_ & _ & _ & Hcaught & _).
  destruct (main_catches_three_cases (scripted watch_remnants) 3
              (delete "CLIENT_ID" credentials) (initial pages))
    as (_ & _ & _ & _ & Hmissing).
  split.
  - specialize (Hcaught "token" "client" eq_refl eq_refl).
    vm_compute in Hcaught. vm_compute. exact Hcaught.
  - apply Hmissing. by right.
Defined.

(** ** [main]: the order of the steps *)

Lemma divide_pos {A} (lst : list A) (n : Z) :
  0 < n → ∃ chunks, divide lst n = Ok chunks.
Proof.
  intros Hn. unfold divide. rewrite !bool_decide_eq_false_2 by lia.
  by eexists.
Qed.

Lemma no_prices_lists lists :
  Forall is_product_list_request lists →
  Forall (λ ev, is_prices_request ev = false) lists.
Proof.
  intros Hall. eapply Forall_impl; [done|].
  by intros ev (cursor & c & t & ->).
Qed.

Lemma no_prices_stocks client_id seller_token (sent : list (list Stock.t)) :
  Forall (λ ev, is_prices_request ev = false)
    ((λ chunk, StocksRequest chunk client_id seller_token) <$> sent).
Proof. apply Forall_fmap, Forall_forall. by intros chunk _. Qed.

Section Order.
Context {World : Type} (net : network World).
Context (client_id seller_token : string).
Implicit Types (σ : state World) (l : loc).

Lemma main_update_stocks_run fuel σ r σ' :
  main_update_stocks net fuel client_id seller_token σ = (r, σ') →
  match r with
  | Return (watch_remnants, l) =>
      ∃ σ1 σ2 stocks σ3 lists chunks,
        get_offer_ids net fuel client_id seller_token σ = (Return l, σ1) ∧
        download_stock net σ1 = (Return watch_remnants, σ2) ∧
        create_stocks watch_remnants l σ2 = (Return stocks, σ3) ∧
        divide stocks 100 = Ok chunks ∧
        Forall is_product_list_request lists ∧
        trace σ1 = trace σ ++ lists ∧
        heap σ2 = heap σ1 ∧ heap σ' = heap σ3 ∧
        trace σ' = trace σ1 ++ [RemnantsDownload]
          ++ ((λ chunk, StocksRequest chunk client_id seller_token) <$> chunks)
  | _ =>
      ∃ t, trace σ' = trace σ ++ t ∧
           main_run client_id seller_token (void r) t ∧
           Forall (λ ev, is_prices_request ev = false) t
  end.
Proof.
  unfold main_update_stocks, mbind, M_bind.
  destruct (get_offer_ids _ _ _ _ _) as [r1 σ1] eqn:Hids.
  pose proof Hids as Hids'.
  apply get_offer_ids_run in Hids' as (_ & lists & Hlists & Hall).
  pose proof (no_prices_lists _ Hall) as Hno.
  destruct r1 as [l|e|]; cycle 1.
  { intros [= <- <-]. exists lists. split_and!; [done| |done]. by constructor. }
  { intros [= <- <-]. exists lists. split_and!; [done| |done]. by constructor. }
  destruct (download_stock net σ1) as [r2 σ2] eqn:Hdl.
  pose proof Hdl as Hdl'.
  apply request_run in Hdl' as (Hheap2 & _ & Htrace2 & Hrun2).
  destruct r2 as [watch_remnants|e|]; [| |done]; cycle 1.
  { intros [= <- <-]. exists (lists ++ [RemnantsDownload]).
    split_and!; [by rewrite Htrace2, Hlists, <- app_assoc|by constructor|].
    apply Forall_app. split; [done|]. by repeat constructor. }
  destruct (create_stocks_run watch_remnants l σ2)
    as (σ3 & Hstocks & (_ & Htrace3 & _) & _).
  rewrite Hstocks.
  destruct (stocks_of_rows _ _ _) as [[stocks0|e] ids']; cycle 1.
  { intros [= <- <-]. exists (lists ++ [RemnantsDownload]).
    split_and!;
      [by rewrite Htrace3, Htrace2, Hlists, <- app_assoc|by constructor|].
    apply Forall_app. split; [done|]. by repeat constructor. }
  set (stocks := stocks0 ++ (zero_stock <$> ids')) in *.
  destruct (divide_pos stocks 100 ltac:(lia)) as [chunks Hchunks].
  rewrite Hchunks. simpl.
  destruct (for_each _ _ _) as [r4 σ4] eqn:Hsend.
  pose proof Hsend as Hsend'.
  apply (for_each_request
           (λ chunk, StocksRequest chunk client_id seller_token)
           (λ chunk, stocks_reply net chunk client_id seller_token))
    in Hsend' as (Hheap4 & _ & Hrun4 & sent & Hsent & Htrace4 & Hall4).
  destruct r4 as [[]|e|]; [| |done].
  - intros [= <- <-]. rewrite (Hall4 eq_refl) in Htrace4.
    exists σ1, σ2, stocks, σ3, lists, chunks.
    split_and!; try done.
    by rewrite Htrace4, Htrace3, Htrace2, <- !app_assoc.
  - intros [= <- <-]. eexists. split_and!.
    + by rewrite Htrace4, Htrace3, Htrace2, Hlists, <- !app_assoc.
    + by econstructor 3.
    + apply Forall_app. split; [done|]. apply Forall_cons.
      split; [done|]. apply no_prices_stocks.
Qed.

Lemma main_change_prices_run watch_remnants l σ r σ' :
  main_change_prices net watch_remnants l client_id seller_token σ = (r, σ') →
  r ≠ Running ∧
  ((∃ e, r = Raise e ∧ σ' = σ) ∨
   ∃ prices chunks sent,
     create_prices watch_remnants l σ = (Return prices, σ) ∧
     divide prices 900 = Ok chunks ∧
     sent `prefix_of` chunks ∧
     (r = Return () → sent = chunks) ∧
     trace σ' = trace σ
       ++ ((λ chunk, PricesRequest chunk client_id seller_token) <$> sent)).
Proof.
  unfold main_change_prices, mbind, M_bind, create_prices.
  rewrite create_prices_loop_run.
  destruct (prices_of_rows _ _ _) as [prices|e]; cbn [outcome_of]; cycle 1.
  { intros [= <- <-]. split; [done|]. left. by exists e. }
  destruct (divide_pos prices 900 ltac:(lia)) as [chunks Hchunks].
  rewrite Hchunks. simpl. intros Hsend.
  apply (for_each_request
           (λ chunk, PricesRequest chunk client_id seller_token)
           (λ chunk, prices_reply net chunk client_id seller_token))
    in Hsend as (_ & _ & Hrun & sent & Hsent & Htrace & Hall).
  split; [done|]. right. by exists prices, chunks, sent.
Qed.

End Order.

Section Run.
Context {World : Type} (net : network World).
Implicit Types (σ : state World) (l : loc).

(** C9, as amended.  A run of the [try] block of [main] first fetches the
    SKU list, then downloads the remnants, then computes the stocks, then
    sends them in chunks of 100, then computes the prices, then sends them
    in chunks of 900: the requests of every run, in the order they were
    sent, have one of the shapes of [main_run], no request is sent twice,
    and in a run that returns they are all the requests of the six steps,
    computed from what the steps before returned.  [upload_prices] sends
    its prices in chunks of 1000.  A step that raises ends the run with its
    exception in the state it left, a chunk that is refused included: no
    later step runs and none is run again. *)
Theorem main_run_order fuel client_id seller_token σ :
  (∀ r σ',
     main_try net fuel client_id seller_token σ = (r, σ') →
     ∃ t, trace σ' = trace σ ++ t ∧
       main_run client_id seller_token r t ∧
       (r = Return () →
        ∃ l σ1 watch_remnants σ2 stocks σ3 σ4 prices lists chunks chunks',
          get_offer_ids net fuel client_id seller_token σ = (Return l, σ1) ∧
          download_stock net σ1 = (Return watch_remnants, σ2) ∧
          create_stocks watch_remnants l σ2 = (Return stocks, σ3) ∧
          heap σ4 = heap σ3 ∧
          create_prices watch_remnants l σ4 = (Return prices, σ4) ∧
          divide stocks 100 = Ok chunks ∧
          divide prices 900 = Ok chunks' ∧
          trace σ1 = trace σ ++ lists ∧
          t = lists ++ [RemnantsDownload]
              ++ ((λ chunk, StocksRequest chunk client_id seller_token)
                    <$> chunks)
              ++ ((λ chunk, PricesRequest chunk client_id seller_token)
                    <$> chunks'))) ∧
  (∀ watch_remnants prices σ',
     upload_prices net fuel watch_remnants client_id seller_token σ
     = (Return prices, σ') →
     ∃ lists chunks,
       Forall is_product_list_request lists ∧
       divide prices 1000 = Ok chunks ∧
       trace σ' = trace σ ++ lists
         ++ ((λ chunk, PricesRequest chunk client_id seller_token)
               <$> chunks)) ∧
  let run := main_try net fuel client_id seller_token σ in
  let send_stocks chunks :=
    for_each chunks (λ some_stock,
      update_stocks net some_stock client_id seller_token) in
  let send_prices chunks :=
    for_each chunks (λ some_price,
      update_price net some_price client_id seller_token) in
  (∀ e σ1,
     get_offer_ids net fuel client_id seller_token σ = (Raise e, σ1) →
     run = (Raise e, σ1)) ∧
  (∀ l σ1,
     get_offer_ids net fuel client_id seller_token σ = (Return l, σ1) →
     (∀ e σ2, download_stock net σ1 = (Raise e, σ2) → run = (Raise e, σ2)) ∧
     ∀ watch_remnants σ2,
       download_stock net σ1 = (Return watch_remnants, σ2) →
       (∀ e σ3, create_stocks watch_remnants l σ2 = (Raise e, σ3) →
                run = (Raise e, σ3)) ∧
       ∀ stocks σ3 chunks,
         create_stocks watch_remnants l σ2 = (Return stocks, σ3) →
         divide stocks 100 = Ok chunks →
         (∀ e σ4, send_stocks chunks σ3 = (Raise e, σ4) →
                  run = (Raise e, σ4)) ∧
         ∀ σ4,
           send_stocks chunks σ3 = (Return (), σ4) →
           (∀ e σ5, create_prices watch_remnants l σ4 = (Raise e, σ5) →
                    run = (Raise e, σ5)) ∧
           ∀ prices σ5 chunks',
             create_prices watch_remnants l σ4 = (Return prices, σ5) →
             divide prices 900 = Ok chunks' →
             run = send_prices chunks' σ5) ∧
  (∀ A (body : A → M ()) before chunk after e σ1 σ2,
     for_each before body σ = (Return (), σ1) →
     body chunk σ1 = (Raise e, σ2) →
     for_each (before ++ chunk :: after) body σ = (Raise e, σ2)).
Proof.
  split_and!;
    [| |intros run send_stocks send_prices;
        subst run send_stocks send_prices; split_and!]; cycle 2.
  { intros e σ1 Hids.
    unfold main_try, main_update_stocks, mbind, M_bind. by rewrite Hids. }
  { intros l σ1 Hids.
    unfold main_try, main_update_stocks, main_change_prices, mbind, M_bind.
    rewrite Hids. split; [by intros e σ2 ->|].
    intros watch_remnants σ2 ->. split; [by intros e σ3 ->|].
    intros stocks σ3 chunks -> ->. unfold lift, mret, M_ret. cbv beta iota.
    split; [by intros e σ4 ->|].
    intros σ4 ->. cbv beta iota. split; [by intros e σ5 ->|].
    by intros prices σ5 chunks' -> ->. }
  { intros A body before chunk after e σ1 σ2. revert σ.
    induction before as [|c before IH]; intros σ; simpl.
    - intros [= <-] Hbody. unfold mbind, M_bind. by rewrite Hbody.
    - unfold mbind, M_bind. destruct (body c σ) as [[[]|e'|] σ'];
        [|done..].
      apply IH. }
  - intros r σ'. unfold main_try, mbind, M_bind.
    destruct (main_update_stocks _ _ _ _ _) as [r1 σ4] eqn:Hfirst.
    apply main_update_stocks_run in Hfirst.
    destruct r1 as [[watch_remnants l]|e|]; cycle 1.
    { destruct Hfirst as (t & Htrace & Hrun & _).
      intros [= <- <-]. by exists t. }
    { destruct Hfirst as (t & Htrace & Hrun & _).
      intros [= <- <-]. by exists t. }
    destruct Hfirst as (σ1 & σ2 & stocks & σ3 & lists & chunks & Hids & Hdl
      & Hstocks & Hchunks & Hall & Htrace1 & Hheap2 & Hheap4 & Htrace4).
    intros Hsecond. apply main_change_prices_run in Hsecond as [Hrun Hsecond].
    destruct Hsecond as [(e & -> & ->)
      |(prices & chunks' & sent & Hprices & Hchunks' & Hsent & Hsent' & Htrace)].
    + eexists. split_and!; [|by eapply run_stocks|done].
      by rewrite Htrace4, Htrace1, <- !app_assoc.
    + eexists. split_and!.
      * by rewrite Htrace, Htrace4, Htrace1, <- !app_assoc.
      * by eapply run_prices.
      * intros ->. rewrite (Hsent' eq_refl).
        by exists l, σ1, watch_remnants, σ2, stocks, σ3, σ4, prices, lists,
          chunks, chunks'.
  - intros watch_remnants prices σ'. unfold upload_prices, mbind, M_bind.
    destruct (get_offer_ids _ _ _ _ _) as [r1 σ1] eqn:Hids.
    apply get_offer_ids_run in Hids as (_ & lists & Hlists & Hall).
    destruct r1 as [l|e|]; [|done..].
    unfold create_prices. rewrite create_prices_loop_run.
    destruct (prices_of_rows _ _ _) as [prices'|e]; cbn [outcome_of]; [|done].
    destruct (divide_pos prices' 1000 ltac:(lia)) as [chunks Hchunks].
    rewrite Hchunks. simpl.
    destruct (for_each _ _ _) as [r2 σ2] eqn:Hsend.
    apply (for_each_request
             (λ chunk, PricesRequest chunk client_id seller_token)
             (λ chunk, prices_reply net chunk client_id seller_token))
      in Hsend as (_ & _ & _ & sent & _ & Htrace & Hsent).
    destruct r2 as [[]|e|]; [|done..].
    intros [= <- <-]. exists lists, chunks. split_and!; [done..|].
    by rewrite Htrace, Hlists, (Hsent eq_refl), <- app_assoc.
Qed.

(** C1. In [main] the list object that [create_stocks] has emptied of every
    matched SKU is the one [create_prices] then reads.  When the SKU list
    that was fetched has no duplicates, [create_prices] therefore returns
    the empty list once the stocks have been sent, whatever the rows hold,
    the second half of [main] does nothing, and the whole run of [main]
    sends no price request. *)
Theorem main_sends_no_prices fuel environ σ :
  (∀ seller_token client_id l σ1,
     environ !! "SELLER_TOKEN" = Some seller_token →
     environ !! "CLIENT_ID" = Some client_id →
     get_offer_ids net fuel client_id seller_token σ = (Return l, σ1) →
     NoDup (heap σ1 !!! l)) →
  (∀ seller_token client_id watch_remnants l σ2,
     environ !! "SELLER_TOKEN" = Some seller_token →
     environ !! "CLIENT_ID" = Some client_id →
     main_update_stocks net fuel client_id seller_token σ
     = (Return (watch_remnants, l), σ2) →
     create_prices watch_remnants l σ2 = (Return [], σ2) ∧
     main_change_prices net watch_remnants l client_id seller_token σ2
     = (Return (), σ2)) ∧
  ∃ t, trace (main net fuel environ σ).2 = trace σ ++ t ∧
       Forall (λ ev, is_prices_request ev = false) t.
Proof.
  intros Hnodup.
  assert (∀ seller_token client_id watch_remnants l σ2,
    environ !! "SELLER_TOKEN" = Some seller_token →
    environ !! "CLIENT_ID" = Some client_id →
    main_update_stocks net fuel client_id seller_token σ
    = (Return (watch_remnants, l), σ2) →
    (∃ t, trace σ2 = trace σ ++ t ∧
          Forall (λ ev, is_prices_request ev = false) t) ∧
    create_prices watch_remnants l σ2 = (Return [], σ2) ∧
    main_change_prices net watch_remnants l client_id seller_token σ2
    = (Return (), σ2)) as Hsecond.
  { intros seller_token client_id watch_remnants l σ2 Htoken Hclient Hfirst.
    apply main_update_stocks_run in Hfirst
      as (σ1 & σ1' & stocks & σ3 & lists & chunks & Hids & Hdl & Hstocks
          & Hchunks & Hall & Htrace1 & Hheap2 & Hheap4 & Htrace4).
    specialize (Hnodup _ _ _ _ Htoken Hclient Hids).
    assert (create_prices watch_remnants l σ2 = (Return [], σ2)) as Hprices.
    { apply create_prices_nothing_matches. rewrite Hheap4.
      destruct (create_stocks_run watch_remnants l σ1')
        as (σ3' & Hrun & _ & Hl).
      rewrite Hstocks in Hrun. rewrite Hheap2 in Hrun, Hl.
      destruct (stocks_of_rows _ _ _) as [[stocks0|e] ids'] eqn:Hrows;
        [|done].
      injection Hrun as _ <-. simpl in Hl. rewrite Hl.
      by eapply stocks_of_rows_NoDup. }
    split_and!; [|done|].
    - eexists. split; [by rewrite Htrace4, Htrace1, <- app_assoc|].
      apply Forall_app. split; [by apply no_prices_lists|].
      apply Forall_cons. split; [done|]. apply no_prices_stocks.
    - unfold main_change_prices, mbind, M_bind. by rewrite Hprices. }
  split.
  { intros seller_token client_id watch_remnants l σ2 Htoken Hclient Hfirst.
    by destruct (Hsecond _ _ _ _ _ Htoken Hclient Hfirst) as (_ & ? & ?). }
  unfold main, env_str, mbind, M_bind, try_except.
  destruct (environ !! "SELLER_TOKEN") as [seller_token|] eqn:Htoken;
    [|exists []; by rewrite app_nil_r].
  destruct (environ !! "CLIENT_ID") as [client_id|] eqn:Hclient;
    [|exists []; by rewrite app_nil_r].
  simpl. unfold main_try, mbind, M_bind.
  destruct (main_update_stocks _ _ _ _ _) as [r1 σ2] eqn:Hfirst.
  destruct r1 as [[watch_remnants l]|e|].
  - destruct (Hsecond _ _ _ _ _ eq_refl eq_refl Hfirst)
      as (Htrace & _ & ->).
    exact Htrace.
  - apply main_update_stocks_run in Hfirst as (t & Htrace & _ & Hno).
    exists t. by destruct e.
  - apply main_update_stocks_run in Hfirst as (t & Htrace & _ & Hno).
    by exists t.
Qed.

End Run.

(** ** The steps on a scripted run *)

(** In a run of [main] the SKU list is requested before the remnants are
    downloaded. *)
Lemma main_fetches_sku_list_first :
  ¬ remnants_fetched_first
      (trace (main_try (scripted one_row) 3 "client" "token"
                (initial listed_twice)).2).
Proof.
  intros Hclaim.
  specialize (Hclaim 1%nat 0%nat (ProductListRequest "" "client" "token")
                eq_refl eq_refl).
  assert (1 < 0)%nat; [|lia].
  apply Hclaim. by eexists _, _, _.
Qed.

Lemma main_run_order_witness :
  let run := main_try (scripted one_row) 3 "client" "token"
               (initial listed_twice) in
  run.1 = Return () ∧
  main_run "client" "token" (Return ()) (trace run.2) ∧
  trace run.2
  = [ProductListRequest "" "client" "token"; RemnantsDownload;
     StocksRequest [Stock.make "123" 100; Stock.make "123" 0] "client" "token";
     PricesRequest [Price.make "UNKNOWN" "RUB" "123" "0" "5000"]
       "client" "token"] ∧
  trace (upload_prices (scripted one_row) 3 one_row "client" "token"
           (initial listed_once)).2
  = [ProductListRequest "" "client" "token";
     PricesRequest [Price.make "UNKNOWN" "RUB" "123" "0" "5000"]
       "client" "token"].
Proof.
  intros run.
  destruct (main_run_order (scripted one_row) 3 "client" "token"
              (initial listed_twice)) as [Hmain _].
  destruct (Hmain run.1 run.2 (surjective_pairing _))
    as (t & Htrace & Hrun & _).
  simpl in Htrace. rewrite Htrace.
  assert (run.1 = Return ()) as Hreturn by reflexivity.
  rewrite Hreturn in Hrun.
  split_and!; [done|done| |reflexivity].
  rewrite <- Htrace. reflexivity.
Defined.

Lemma main_sends_no_prices_witness :
  let σ := initial listed_once in
  let run := main (scripted one_row) 3 credentials σ in
  run.1 = Return () ∧
  (∃ t, trace run.2 = trace σ ++ t ∧
        Forall (λ ev, is_prices_request ev = false) t) ∧
  trace run.2
  = [ProductListRequest "" "client" "token"; RemnantsDownload;
     StocksRequest [Stock.make "123" 100] "client" "token"].
Proof.
  intros σ run.
  destruct (main_sends_no_prices (scripted one_row) 3 credentials σ)
    as [_ Hnone].
  { intros seller_token client_id l σ1 Htoken Hclient Hids.
    injection Htoken as <-. injection Hclient as <-.
    vm_compute in Hids. injection Hids as <- <-.
    apply (bool_decide_unpack _). by vm_compute. }
  split_and!; [reflexivity|exact Hnone|reflexivity].
Defined.

(** * Further properties of the code *)

(** ** [divide]: how many chunks *)

Lemma length_concat_le {A} (chunks : list (list A)) (step : nat) :
  Forall (λ chunk, (length chunk ≤ step)%nat) chunks →
  (length (concat chunks) ≤ length chunks * step)%nat.
Proof.
  induction 1 as [|chunk chunks Hchunk _ IH]; simpl; [done|].
  rewrite length_app. lia.
Qed.

Lemma divide_chunks {A} (lst : list A) (n : Z) chunks :
  0 < n → divide lst n = Ok chunks →
  concat chunks = lst ∧
  Forall (λ chunk, (length chunk ≤ Z.to_nat n)%nat) chunks ∧
  ∀ k, (S k = length chunks → k * Z.to_nat n < length lst)%nat.
Proof.
  intros Hn. unfold divide. rewrite !bool_decide_eq_false_2 by lia.
  intros [= <-]. split_and!.
  - unfold range. by rewrite concat_slices by lia.
  - apply Forall_fmap, Forall_forall. intros i _. simpl.
    rewrite length_slice. lia.
  - intros k. rewrite length_fmap. intros Hk.
    destruct (lookup_lt_is_Some_2 (range 0 (length lst) (Z.to_nat n)) k)
      as [j Hj]; [lia|].
    apply range_from_lookup in Hj. lia.
Qed.

Lemma divide_length {A} (lst : list A) (n : Z) chunks :
  0 < n → divide lst n = Ok chunks →
  Z.of_nat (length chunks) = (Z.of_nat (length lst) + n - 1) `div` n.
Proof.
  intros Hn Hchunks.
  destruct (divide_chunks lst n chunks Hn Hchunks) as (Hcat & Hle & Hlast).
  pose proof (length_concat_le _ _ Hle) as Hlen. rewrite Hcat in Hlen.
  destruct chunks as [|chunk chunks].
  - simpl in *. assert (length lst = 0)%nat as -> by lia.
    symmetry. apply Z.div_small. lia.
  - specialize (Hlast (length chunks) eq_refl). simpl in Hlen.
    apply (Z.div_unique _ _ _
             (Z.of_nat (length lst) + n - 1
              - n * Z.of_nat (length (chunk :: chunks)))).
    + left. simpl length. nia.
    + lia.
Qed.

(** X1. For a chunk size [n > 0], [divide] yields the list length divided by
    [n], rounded up, many chunks, so a list that is not empty and has at
    most [n] items comes back as the one chunk it is.  A chunk size of zero
    raises [ValueError]; a negative one yields no chunk at all, whatever the
    list holds. *)
Theorem divide_chunk_count {A} (lst : list A) :
  (∀ n, 0 < n →
     ∃ chunks, divide lst n = Ok chunks ∧
       Z.of_nat (length chunks) = (Z.of_nat (length lst) + n - 1) `div` n ∧
       (lst ≠ [] → Z.of_nat (length lst) ≤ n → chunks = [lst])) ∧
  divide lst 0 = Err ValueError ∧
  (∀ n, n < 0 → divide lst n = Ok []).
Proof.
  split_and!; [|done|].
  - intros n Hn. destruct (divide_pos lst n Hn) as [chunks Hchunks].
    exists chunks. split; [done|].
    destruct (divide_chunks lst n chunks Hn Hchunks) as (Hcat & Hle & Hlast).
    pose proof (length_concat_le _ _ Hle) as Hlen. rewrite Hcat in Hlen.
    pose proof (divide_length lst n chunks Hn Hchunks) as Hcount.
    split; [done|]. intros Hne Hsmall.
    assert ((Z.of_nat (length lst) + n - 1) `div` n = 1) as Hone.
    { symmetry. apply (Z.div_unique _ _ _ (Z.of_nat (length lst) - 1)).
      - left. destruct lst; [done|]. simpl length in *. lia.
      - lia. }
    rewrite Hone in Hcount.
    destruct chunks as [|chunk [|chunk' chunks]]; simpl in Hcount; try lia.
    simpl in Hcat. rewrite app_nil_r in Hcat. by rewrite Hcat.
  - intros n Hn. unfold divide.
    rewrite bool_decide_eq_false_2 by lia. by rewrite bool_decide_eq_true_2.
Qed.

Lemma divide_chunk_count_witness :
  ∃ chunks, divide ["a"; "b"; "c"; "d"; "e"] 2 = Ok chunks ∧
    Z.of_nat (length chunks) = 3 ∧
    divide ["a"; "b"] (-3) = Ok [] ∧
    divide ["a"; "b"] 900 = Ok [["a"; "b"]].
Proof.
  destruct (divide_chunk_count ["a"; "b"; "c"; "d"; "e"]) as (Hcount & _ & _).
  destruct (Hcount 2 ltac:(lia)) as (chunks & Hchunks & Hlen & _).
  destruct (divide_chunk_count ["a"; "b"]) as (Hone & _ & Hneg).
  destruct (Hone 900 ltac:(lia)) as (chunks' & Hchunks' & _ & Hsingle).
  exists chunks. split_and!; [done|exact Hlen|apply Hneg; lia|].
  rewrite Hchunks'. f_equal. apply Hsingle; [done|simpl; lia].
Defined.

(** ** [price_conversion]: what comes out *)

Lemma split_dot_0_sublist s : chars (split_dot_0 s) `sublist_of` chars s.
Proof.
  induction s as [|c s IH]; simpl; [done|].
  case_bool_decide; simpl; [apply sublist_nil_l|by apply sublist_skip].
Qed.

Lemma sub_non_digits_empty s :
  sub_non_digits s = EmptyString ↔ Forall (λ c, ¬ is_digit c) (chars s).
Proof.
  induction s as [|c s IH]; simpl; [done|].
  destruct (is_digit c) eqn:Hc.
  - split; [done|]. intros [Hnot _]%Forall_cons.
    destruct Hnot. by apply Is_true_true.
  - rewrite IH, Forall_cons. split; [|by intros [_ ?]].
    intros Hs. split; [|done]. by apply Is_true_false.
Qed.

(** X2. Whatever the text, [price_conversion] returns digits only, all of
    them taken from the text in their order.  The result is the empty string
    exactly when no digit stands before the first ".", as for "" and for
    ".50": the code then hands on an empty price. *)
Theorem price_conversion_digits_only s :
  Forall (λ c, is_digit c) (chars (price_conversion s)) ∧
  chars (price_conversion s) `sublist_of` chars s ∧
  (∀ a b, s = a +:+ String "." b → "."%char ∉ chars a →
     (price_conversion s = EmptyString ↔
      Forall (λ c, ¬ is_digit c) (chars a))) ∧
  ("."%char ∉ chars s →
     (price_conversion s = EmptyString ↔
      Forall (λ c, ¬ is_digit c) (chars s))).
Proof.
  unfold price_conversion. split_and!.
  - apply sub_non_digits_all_digits.
  - rewrite chars_sub_non_digits. etrans; [apply sublist_filter|].
    apply split_dot_0_sublist.
  - intros a b -> Ha. rewrite split_dot_0_at_dot by done.
    apply sub_non_digits_empty.
  - intros Hs. rewrite split_dot_0_no_dot by done.
    apply sub_non_digits_empty.
Qed.

Lemma price_conversion_digits_only_witness :
  price_conversion ".50" = EmptyString ∧
  price_conversion "RUB" = EmptyString ∧
  price_conversion "n/a.75" = EmptyString.
Proof.
  split_and!.
  - destruct (price_conversion_digits_only ".50") as (_ & _ & Hcut & _).
    apply (Hcut EmptyString "50" eq_refl); [|done].
    apply (bool_decide_unpack _). by vm_compute.
  - destruct (price_conversion_digits_only "RUB") as (_ & _ & _ & Hall).
    apply Hall; apply (bool_decide_unpack _); by vm_compute.
  - destruct (price_conversion_digits_only "n/a.75") as (_ & _ & Hcut & _).
    apply (Hcut "n/a" "75" eq_refl); apply (bool_decide_unpack _);
      by vm_compute.
Defined.

(** ** The stock of a cell *)

Lemma pretty_Z_not_gt10 (z : Z) : pretty z ≠ ">10".
Proof.
  intros Hz. pose proof (int_of_string_pretty z) as Hint.
  by rewrite Hz in Hint.
Qed.

Lemma pretty_Z_one (z : Z) : pretty z = "1" ↔ z = 1.
Proof.
  split; [|by intros ->]. intros Hz.
  by apply (inj (pretty : Z → string)).
Qed.

(** X3. A quantity cell that holds an integer never fails: the integer 1
    gives stock 0 and every other integer is its own stock, negative ones
    and those above 10 included.  A row without the quantity key fails with
    [TypeError], and an empty quantity text with [ValueError]. *)
Theorem stock_of_cells (watch : dict) :
  (∀ z, dict_get watch "Количество" = VInt z →
     stock_of watch = Ok (if bool_decide (z = 1) then 0 else z)) ∧
  (watch !! "Количество" = None → stock_of watch = Err TypeError) ∧
  (dict_get watch "Количество" = VStr EmptyString →
     stock_of watch = Err ValueError).
Proof.
  unfold stock_of. split_and!.
  - intros z ->. simpl.
    rewrite (bool_decide_eq_false_2 _ (pretty_Z_not_gt10 z)).
    case_bool_decide as Hone.
    + apply pretty_Z_one in Hone as ->. done.
    + rewrite bool_decide_eq_false_2; [done|].
      intros ->. by apply Hone.
  - intros Hnone. unfold dict_get. by rewrite Hnone.
  - by intros ->.
Qed.

Lemma stock_of_cells_witness :
  stock_of (row (VStr "123") (VInt 1) VNone) = Ok 0 ∧
  stock_of (row (VStr "123") (VInt 50) VNone) = Ok 50 ∧
  stock_of (row (VStr "123") (VInt (-2)) VNone) = Ok (-2) ∧
  stock_of (delete "Количество" (row (VStr "123") (VInt 1) VNone))
  = Err TypeError ∧
  stock_of (row (VStr "123") (VStr "") VNone) = Err ValueError.
Proof.
  split_and!.
  - by apply (proj1 (stock_of_cells (row (VStr "123") (VInt 1) VNone)) 1).
  - by apply (proj1 (stock_of_cells (row (VStr "123") (VInt 50) VNone)) 50).
  - by apply
      (proj1 (stock_of_cells (row (VStr "123") (VInt (-2)) VNone)) (-2)).
  - by apply (proj1 (proj2 (stock_of_cells _))).
  - by apply
      (proj2 (proj2 (stock_of_cells (row (VStr "123") (VStr "") VNone)))).
Defined.

(** ** [create_stocks]: failures and rows that are not listed *)

Lemma stock_of_Err watch e :
  stock_of watch = Err e →
  (e = ValueError ∨ e = TypeError) ∧
  str (dict_get watch "Количество") ≠ ">10" ∧
  str (dict_get watch "Количество") ≠ "1" ∧
  int (dict_get watch "Количество") = Err e.
Proof.
  unfold stock_of. repeat case_bool_decide; try done.
  intros Hint. split_and!; [|done..].
  destruct (dict_get watch "Количество") as [|s|z]; simpl in Hint.
  - injection Hint as <-. by right.
  - destruct (int_of_string s); [done|]. injection Hint as <-. by left.
  - done.
Qed.

Section StocksFailures.
Context {World : Type}.
Implicit Types (σ : state World) (l : loc) (watch : dict).

Lemma create_stocks_loop_Raise watch_remnants l stocks σ e σ' :
  create_stocks_loop watch_remnants l stocks σ = (Raise e, σ') →
  ∃ before watch rest stocks',
    watch_remnants = before ++ watch :: rest ∧
    create_stocks_loop before l stocks σ = (Return stocks', σ') ∧
    sku watch ∈ heap σ' !!! l ∧
    stock_of watch = Err e.
Proof.
  revert stocks σ.
  induction watch_remnants as [|w rest IH]; intros stocks σ; [done|].
  destruct (decide (sku w ∈ heap σ !!! l)) as [Hin|Hnot].
  - rewrite create_stocks_loop_matched by done.
    destruct (stock_of w) as [stock|e'] eqn:Hstock.
    + destruct (remove_first_elem_of _ _ Hin) as [ids' Hrm]. rewrite Hrm.
      intros (before & watch & after & stocks' & -> & Hrun & Hw & He)%IH.
      exists (w :: before), watch, after, stocks'. split_and!; [done| |done..].
      change ((w :: before) ++ []) with (w :: before ++ []) in *.
      rewrite create_stocks_loop_matched by done. by rewrite Hstock, Hrm.
    + intros [= <- <-]. by exists [], w, rest, stocks.
  - simpl. unfold mbind, M_bind, read. simpl.
    rewrite bool_decide_eq_false_2 by done.
    intros (before & watch & after & stocks' & -> & Hrun & Hw & He)%IH.
    exists (w :: before), watch, after, stocks'. split_and!; [done| |done..].
    simpl. unfold mbind, M_bind, read. simpl.
    by rewrite bool_decide_eq_false_2.
Qed.

Lemma create_stocks_loop_unlisted (ids0 : list string) watch_remnants l
    stocks σ :
  heap σ !!! l ⊆ ids0 →
  create_stocks_loop watch_remnants l stocks σ
  = create_stocks_loop (filter (λ watch, sku watch ∈ ids0) watch_remnants)
      l stocks σ.
Proof.
  revert stocks σ.
  induction watch_remnants as [|w rest IH]; intros stocks σ Hsub; [done|].
  destruct (decide (sku w ∈ heap σ !!! l)) as [Hin|Hnot].
  - rewrite filter_cons_True by (by apply Hsub).
    rewrite !create_stocks_loop_matched by done.
    destruct (stock_of w); [|done].
    destruct (remove_first _ _) as [ids'|] eqn:Hrm; [|done].
    apply IH. simpl. rewrite lookup_total_insert_eq.
    etrans; [|done]. by eapply sublist_subseteq, remove_first_sublist.
  - assert (create_stocks_loop (w :: rest) l stocks σ
            = create_stocks_loop rest l stocks σ) as ->.
    { simpl. unfold mbind, M_bind, read. simpl.
      by rewrite bool_decide_eq_false_2. }
    rewrite IH by done.
    destruct (decide (sku w ∈ ids0)).
    + rewrite filter_cons_True by done. simpl.
      unfold mbind, M_bind, read. simpl.
      by rewrite bool_decide_eq_false_2.
    + by rewrite filter_cons_False.
Qed.

Lemma create_stocks_nothing_matches watch_remnants l σ :
  (∀ watch, watch ∈ watch_remnants → sku watch ∉ heap σ !!! l) →
  create_stocks watch_remnants l σ
  = (Return (zero_stock <$> heap σ !!! l), σ).
Proof.
  intros Hnone. unfold create_stocks, mbind, M_bind.
  rewrite (create_stocks_loop_unlisted (heap σ !!! l)) by done.
  assert (filter (λ watch, sku watch ∈ heap σ !!! l) watch_remnants = [])
    as ->; [|done].
  induction watch_remnants as [|w rest IH]; [done|].
  rewrite filter_cons_False by (apply Hnone; left).
  apply IH. intros watch Hw. apply Hnone. by right.
Qed.

(** X4. [create_stocks] raises nothing of its own: when it raises, it is
    the [ValueError] or [TypeError] of [int] on the quantity of the first
    row that finds its SKU in the list and holds neither ">10" nor "1".  The
    rows before it have been worked off and stay so: the list object has
    lost one SKU for every entry made until then, and nothing puts them
    back. *)
Theorem create_stocks_raises watch_remnants l σ e σ' :
  create_stocks watch_remnants l σ = (Raise e, σ') →
  (e = ValueError ∨ e = TypeError) ∧
  ∃ before watch rest stocks,
    watch_remnants = before ++ watch :: rest ∧
    create_stocks_loop before l [] σ = (Return stocks, σ') ∧
    sku watch ∈ heap σ' !!! l ∧
    str (dict_get watch "Количество") ≠ ">10" ∧
    str (dict_get watch "Количество") ≠ "1" ∧
    int (dict_get watch "Количество") = Err e ∧
    heap σ' !!! l `sublist_of` heap σ !!! l ∧
    (length (heap σ' !!! l) + length stocks = length (heap σ !!! l))%nat.
Proof.
  unfold create_stocks, mbind, M_bind.
  destruct (create_stocks_loop watch_remnants l [] σ) as [[out|e'|] σ1]
    eqn:Hloop; [done| |done].
  intros [= -> ->].
  apply create_stocks_loop_Raise in Hloop
    as (before & watch & rest & stocks & -> & Hrun & Hin & Hstock).
  apply stock_of_Err in Hstock as (He & Hgt & Hone & Hint).
  split; [done|]. exists before, watch, rest, stocks.
  split_and!; try done.
  - destruct (create_stocks_loop_run before l [] σ) as (σ2 & Hrun' & _ & Hl).
    rewrite Hrun in Hrun'.
    destruct (stocks_of_rows before _ _) as [[out|?] ids'] eqn:Hrows; [|done].
    injection Hrun' as _ <-. simpl in Hl. rewrite Hl.
    by apply stocks_of_rows_Ok in Hrows as (_ & _ & _ & _ & _ & _ & ?).
  - destruct (create_stocks_loop_run before l [] σ) as (σ2 & Hrun' & _ & Hl).
    rewrite Hrun in Hrun'.
    destruct (stocks_of_rows before _ _) as [[out|?] ids'] eqn:Hrows; [|done].
    injection Hrun' as <- <-. simpl in Hl. rewrite Hl.
    apply stocks_of_rows_Ok in Hrows
      as (matched & entries & -> & _ & _ & Hperm & _).
    apply Permutation_length in Hperm.
    rewrite length_app, length_fmap in Hperm. simpl. lia.
Qed.

(** X5. Rows whose SKU is not in the list do not count: [create_stocks]
    gives the same result, and leaves the same state, as on the rows whose
    SKU the list holds at the call, so a row that is not listed adds no
    entry and its quantity is never read.  When no row is listed, every SKU
    gets stock 0 and the list object is left as it is. *)
Theorem create_stocks_ignores_unlisted_rows watch_remnants l σ :
  create_stocks watch_remnants l σ
  = create_stocks
      (filter (λ watch, sku watch ∈ heap σ !!! l) watch_remnants) l σ ∧
  ((∀ watch, watch ∈ watch_remnants → sku watch ∉ heap σ !!! l) →
   create_stocks watch_remnants l σ
   = (Return (zero_stock <$> heap σ !!! l), σ)).
Proof.
  split; [|apply create_stocks_nothing_matches].
  unfold create_stocks, mbind, M_bind.
  by rewrite (create_stocks_loop_unlisted (heap σ !!! l)).
Qed.

End StocksFailures.

Lemma create_stocks_raises_witness :
  let σ := {| heap := {[ 0%nat := ["123"; "124"] ]};
              world := (); trace := []; stdout := [] |} in
  let σ' := (write 0%nat ["124"] σ).2 in
  let watch_remnants :=
    [row (VStr "123") (VStr ">10") VNone; row (VStr "124") (VStr "many") VNone;
     row (VStr "125") (VStr "5") VNone] in
  create_stocks watch_remnants 0%nat σ = (Raise ValueError, σ') ∧
  heap σ' !!! 0%nat = ["124"] ∧
  ∃ before watch rest stocks,
    watch_remnants = before ++ watch :: rest ∧
    create_stocks_loop before 0%nat [] σ = (Return stocks, σ') ∧
    int (dict_get watch "Количество") = Err ValueError ∧
    (length (heap σ' !!! 0%nat) + length stocks
     = length (heap σ !!! 0%nat))%nat.
Proof.
  intros σ σ' watch_remnants.
  assert (create_stocks watch_remnants 0%nat σ = (Raise ValueError, σ'))
    as Hrun by reflexivity.
  destruct (create_stocks_raises watch_remnants 0%nat σ _ _ Hrun)
    as (_ & before & watch & rest & stocks & Hrows & Hbefore & _ & _ & _
        & Hint & _ & Hlen).
  split_and!; [done..|]. by exists before, watch, rest, stocks.
Defined.

Lemma create_stocks_ignores_unlisted_rows_witness :
  let σ := {| heap := {[ 0%nat := ["123"; "126"] ]};
              world := (); trace := []; stdout := [] |} in
  create_stocks [row (VStr "125") (VStr "many") VNone; row VNone VNone VNone]
    0%nat σ
  = (Return [Stock.make "123" 0; Stock.make "126" 0], σ).
Proof.
  intros σ.
  apply (create_stocks_ignores_unlisted_rows
           [row (VStr "125") (VStr "many") VNone; row VNone VNone VNone]
           0%nat σ).
  apply Forall_forall. apply (bool_decide_unpack _). by vm_compute.
Defined.

(** ** [create_prices]: failures *)

Lemma prices_of_rows_Err watch_remnants ids prices e :
  prices_of_rows watch_remnants ids prices = Err e →
  e = AttributeError ∧
  Exists (λ watch, ¬ is_str (dict_get watch "Цена"))
         (filter (λ watch, sku watch ∈ ids) watch_remnants).
Proof.
  revert prices. induction watch_remnants as [|watch rest IH]; intros prices;
    simpl; [done|].
  case_bool_decide as Hin.
  - rewrite filter_cons_True by done.
    destruct (dict_get watch "Цена") as [|text|z] eqn:Hprice; simpl.
    + intros [= <-]. split; [done|]. left. rewrite Hprice. by intros [].
    + intros [-> Hex]%IH. split; [done|]. by right.
    + intros [= <-]. split; [done|]. left. rewrite Hprice. by intros [].
  - rewrite filter_cons_False by done. apply IH.
Qed.

Lemma prices_of_rows_bad_cell watch_remnants ids prices :
  Exists (λ watch, ¬ is_str (dict_get watch "Цена"))
         (filter (λ watch, sku watch ∈ ids) watch_remnants) →
  prices_of_rows watch_remnants ids prices = Err AttributeError.
Proof.
  intros Hex.
  destruct (prices_of_rows watch_remnants ids prices) as [out|e] eqn:Hrows.
  - apply prices_of_rows_Ok in Hrows as (updates & _ & Hall).
    apply Exists_exists in Hex as (watch & Hw & Hbad).
    apply list_elem_of_lookup in Hw as [i Hi].
    destruct (Forall2_lookup_l _ _ _ _ _ Hall Hi)
      as (p & _ & text & Htext & _).
    destruct Hbad. by rewrite Htext.
  - by apply prices_of_rows_Err in Hrows as [-> _].
Qed.

(** X6. [create_prices] changes nothing, whatever it does.  It raises
    exactly when some row whose SKU is in the list has a price cell that is
    not text (the [None] of a missing key, or a number), and then it
    raises [AttributeError]; price cells of rows that are not listed are
    never read. *)
Theorem create_prices_raises {World} watch_remnants l (σ : state World) :
  let matched :=
    filter (λ watch, sku watch ∈ heap σ !!! l) watch_remnants in
  (create_prices watch_remnants l σ).2 = σ ∧
  (∀ e, (create_prices watch_remnants l σ).1 = Raise e → e = AttributeError) ∧
  ((create_prices watch_remnants l σ).1 = Raise AttributeError ↔
   Exists (λ watch, ¬ is_str (dict_get watch "Цена")) matched).
Proof.
  intros matched. unfold create_prices. rewrite create_prices_loop_run.
  simpl. split_and!; [done|..].
  - intros e.
    destruct (prices_of_rows _ _ _) as [out|e'] eqn:Hrows; [done|].
    apply prices_of_rows_Err in Hrows as [-> _]. by intros [= <-].
  - split.
    + destruct (prices_of_rows _ _ _) as [out|e'] eqn:Hrows; [done|].
      by apply prices_of_rows_Err in Hrows as [_ ?].
    + intros Hex. by rewrite (prices_of_rows_bad_cell _ _ _ Hex).
Qed.

Lemma create_prices_raises_witness :
  let σ := {| heap := {[ 0%nat := ["123"] ]};
              world := (); trace := []; stdout := [] |} in
  (create_prices [row (VStr "125") VNone (VInt 7);
                  row (VStr "123") VNone (VInt 5000)] 0%nat σ).1
  = Raise AttributeError.
Proof.
  intros σ.
  apply (create_prices_raises
           [row (VStr "125") VNone (VInt 7);
            row (VStr "123") VNone (VInt 5000)] 0%nat σ).
  apply (bool_decide_unpack _). by vm_compute.
Defined.

(** ** The list object of [get_offer_ids] *)

Section Uploads.
Context {World : Type} (net : network World).
Context (client_id seller_token : string).
Implicit Types (σ : state World) (l : loc).

Lemma get_offer_ids_heap fuel σ r σ' :
  get_offer_ids net fuel client_id seller_token σ = (r, σ') →
  match r with
  | Return l =>
      heap σ !! l = None ∧ ∃ ids, heap σ' = <[l := ids]> (heap σ)
  | _ => heap σ' = heap σ
  end.
Proof.
  unfold get_offer_ids, mbind, M_bind.
  destruct (get_offer_ids_loop _ _ _ _ _ _ _) as [r1 σ1] eqn:Hloop.
  apply get_offer_ids_loop_run in Hloop as (Hheap & _).
  destruct r1 as [product_list|e|]; intros [= <- <-]; [|done..].
  simpl. rewrite Hheap. split; [|by eexists].
  apply not_elem_of_dom, is_fresh.
Qed.

(** X7. Every call of [get_offer_ids] that returns hands out a list object
    of its own: the object did not exist before the call, and no list object
    that did is changed by it.  A call that raises, or that is still
    running, leaves the heap as it was; no call prints. *)
Theorem get_offer_ids_new_list fuel σ r σ' :
  get_offer_ids net fuel client_id seller_token σ = (r, σ') →
  stdout σ' = stdout σ ∧
  match r with
  | Return l =>
      heap σ !! l = None ∧
      heap σ' !! l = Some (heap σ' !!! l) ∧
      ∀ l', l' ≠ l → heap σ' !! l' = heap σ !! l'
  | _ => heap σ' = heap σ
  end.
Proof.
  intros Hrun. split; [by apply get_offer_ids_run in Hrun as [? _]|].
  apply get_offer_ids_heap in Hrun.
  destruct r as [l|e|]; [|done..].
  destruct Hrun as (Hnew & ids & ->). split_and!; [done| |].
  - by rewrite lookup_total_insert_eq, lookup_insert_eq.
  - intros l' Hl'. by rewrite lookup_insert_ne.
Qed.

(** ** [upload_stocks] and [upload_prices] *)

Lemma create_stocks_Return watch_remnants l σ out σ' :
  create_stocks watch_remnants l σ = (Return out, σ') →
  only_changes l σ σ' ∧
  ∃ matched entries,
    out = entries ++ (zero_stock <$> heap σ' !!! l) ∧
    matched `sublist_of` watch_remnants ∧
    Forall2 emits matched entries ∧
    Stock.offer_id <$> out ≡ₚ heap σ !!! l.
Proof.
  intros Hrun.
  destruct (create_stocks_run watch_remnants l σ) as (σ'' & Hrun' & Hframe & Hl).
  rewrite Hrun in Hrun'.
  destruct (stocks_of_rows _ _ _) as [[stocks|e] ids'] eqn:Hrows; [|done].
  injection Hrun' as -> <-. simpl in Hl. rewrite Hl. split; [done|].
  apply stocks_of_rows_Ok in Hrows
    as (matched & entries & -> & Hsub & Hemit & Hperm & _).
  exists matched, entries. split_and!; [done..|].
  rewrite fmap_app, <- list_fmap_compose, Hperm. simpl.
  by replace (Stock.offer_id ∘ zero_stock <$> ids') with ids'
    by (symmetry; exact (list_fmap_id ids')).
Qed.

(** X8. When [upload_stocks] returns, it has fetched a list of its own and
    sent, after the list requests and in chunks of 100, every stock it
    returns, once and in order; these stocks carry the SKUs of the fetched
    list, each as often as the list holds it.  The first list it returns is
    the second without the entries of stock 0, and each of its entries comes
    from a row of the remnants.  No list object of the caller is changed. *)
Theorem upload_stocks_returns fuel watch_remnants σ not_empty stocks σ' :
  upload_stocks net fuel watch_remnants client_id seller_token σ
  = (Return (not_empty, stocks), σ') →
  ∃ l σ1 lists chunks,
    get_offer_ids net fuel client_id seller_token σ = (Return l, σ1) ∧
    heap σ !! l = None ∧
    (∀ l', l' ≠ l → heap σ' !! l' = heap σ !! l') ∧
    Stock.offer_id <$> stocks ≡ₚ heap σ1 !!! l ∧
    Forall is_product_list_request lists ∧
    divide stocks 100 = Ok chunks ∧
    concat chunks = stocks ∧
    trace σ' = trace σ ++ lists
      ++ ((λ chunk, StocksRequest chunk client_id seller_token) <$> chunks) ∧
    not_empty = filter (λ stock, Stock.stock stock ≠ 0) stocks ∧
    ∀ entry, entry ∈ not_empty →
      ∃ watch, watch ∈ watch_remnants ∧ emits watch entry.
Proof.
  unfold upload_stocks, mbind, M_bind.
  destruct (get_offer_ids _ _ _ _ _) as [r1 σ1] eqn:Hids.
  pose proof Hids as Hheap1. apply get_offer_ids_heap in Hheap1.
  pose proof Hids as Hrun1.
  apply get_offer_ids_run in Hrun1 as (_ & lists & Htrace1 & Hlists).
  destruct r1 as [l|e|]; [|done..].
  destruct Hheap1 as (Hnew & ids & Hheap1).
  destruct (create_stocks watch_remnants l σ1) as [r2 σ2] eqn:Hstocks.
  destruct r2 as [out|e|]; [|done..].
  pose proof Hstocks as Hshape. apply create_stocks_Return in Hshape
    as ((_ & Htrace2 & _ & Hframe) & matched & entries & Hout & Hsub & Hemit
        & Hperm).
  destruct (divide_pos out 100 ltac:(lia)) as [chunks Hchunks].
  rewrite Hchunks. simpl.
  destruct (for_each _ _ _) as [r3 σ3] eqn:Hsend.
  apply (for_each_request
           (λ chunk, StocksRequest chunk client_id seller_token)
           (λ chunk, stocks_reply net chunk client_id seller_token))
    in Hsend as (Hheap3 & _ & _ & sent & _ & Htrace3 & Hsent).
  destruct r3 as [[]|e|]; [|done..].
  intros [= <- <- <-]. exists l, σ1, lists, chunks.
  destruct (divide_chunks out 100 chunks ltac:(lia) Hchunks) as (Hcat & _).
  split_and!; try done.
  - intros l' Hl'. rewrite Hheap3, Hframe, Hheap1 by done.
    by rewrite lookup_insert_ne.
  - by rewrite Htrace3, Htrace2, Htrace1, (Hsent eq_refl), <- app_assoc.
  - intros entry [Hstock Hentry]%list_elem_of_filter.
    rewrite Hout in Hentry. apply elem_of_app in Hentry as [Hentry|Hentry].
    + apply list_elem_of_lookup in Hentry as [i Hi].
      destruct (Forall2_lookup_r _ _ _ _ _ Hemit Hi) as (watch & Hw & Hwe).
      exists watch. split; [|done].
      eapply sublist_subseteq; [done|]. by eapply list_elem_of_lookup_2.
    + by apply list_elem_of_fmap in Hentry as (x & -> & _).
Qed.

(** X9. When [upload_prices] returns, the prices it returns are the price
    updates of the rows whose SKU is in the list it fetched, one for each
    such row and in the order of the rows; all of them were sent, once and in
    order, in chunks of 1000 after the list requests, and the fetched list
    still holds every SKU.  Here, unlike in [main], each listed row gets its
    price sent. *)
Theorem upload_prices_returns fuel watch_remnants σ prices σ' :
  upload_prices net fuel watch_remnants client_id seller_token σ
  = (Return prices, σ') →
  ∃ l σ1 chunks,
    get_offer_ids net fuel client_id seller_token σ = (Return l, σ1) ∧
    Forall2 priced
      (filter (λ watch, sku watch ∈ heap σ1 !!! l) watch_remnants) prices ∧
    heap σ' = heap σ1 ∧
    divide prices 1000 = Ok chunks ∧
    concat chunks = prices ∧
    trace σ' = trace σ1
      ++ ((λ chunk, PricesRequest chunk client_id seller_token) <$> chunks).
Proof.
  unfold upload_prices, mbind, M_bind.
  destruct (get_offer_ids _ _ _ _ _) as [r1 σ1] eqn:Hids.
  destruct r1 as [l|e|]; [|done..].
  unfold create_prices. rewrite create_prices_loop_run.
  destruct (prices_of_rows _ _ _) as [out|e] eqn:Hrows; cbn [outcome_of];
    [|done].
  apply prices_of_rows_Ok in Hrows as (updates & -> & Hall).
  rewrite app_nil_l.
  destruct (divide_pos updates 1000 ltac:(lia)) as [chunks Hchunks].
  rewrite Hchunks. simpl.
  destruct (for_each _ _ _) as [r3 σ3] eqn:Hsend.
  apply (for_each_request
           (λ chunk, PricesRequest chunk client_id seller_token)
           (λ chunk, prices_reply net chunk client_id seller_token))
    in Hsend as (Hheap3 & _ & _ & sent & _ & Htrace3 & Hsent).
  destruct r3 as [[]|e|]; [|done..].
  intros [= <- <-]. exists l, σ1, chunks.
  destruct (divide_chunks updates 1000 chunks ltac:(lia) Hchunks)
    as (Hcat & _).
  split_and!; try done. by rewrite Htrace3, (Hsent eq_refl).
Qed.

(** X10. Both upload paths compute before they send.  When a row whose SKU
    is in the fetched list has a quantity that [int] cannot read,
    [upload_stocks] raises without having sent one stock; when such a row
    has a price cell that is not text, [upload_prices] raises
    [AttributeError] without having sent one price. *)
Theorem uploads_send_nothing_on_bad_cells fuel watch_remnants σ l σ1 :
  get_offer_ids net fuel client_id seller_token σ = (Return l, σ1) →
  (∀ e σ2,
     create_stocks watch_remnants l σ1 = (Raise e, σ2) →
     upload_stocks net fuel watch_remnants client_id seller_token σ
     = (Raise e, σ2) ∧
     trace σ2 = trace σ1) ∧
  (Exists (λ watch, ¬ is_str (dict_get watch "Цена"))
     (filter (λ watch, sku watch ∈ heap σ1 !!! l) watch_remnants) →
   upload_prices net fuel watch_remnants client_id seller_token σ
   = (Raise AttributeError, σ1)).
Proof.
  intros Hids. split.
  - intros e σ2 Hstocks. unfold upload_stocks, mbind, M_bind.
    rewrite Hids, Hstocks. split; [done|].
    destruct (create_stocks_run watch_remnants l σ1)
      as (σ2' & Hrun & (_ & Htrace & _) & _).
    rewrite Hstocks in Hrun.
    by destruct (stocks_of_rows _ _ _) as [[?|?] ?]; simplify_eq/=.
  - intros Hbad. unfold upload_prices, mbind, M_bind, create_prices.
    rewrite Hids, create_prices_loop_run.
    by rewrite (prices_of_rows_bad_cell _ _ _ Hbad).
Qed.

End Uploads.

(** ** [main]: the stocks that are sent *)

Lemma stocks_sent_app t1 t2 :
  stocks_sent (t1 ++ t2) = stocks_sent t1 ++ stocks_sent t2.
Proof. apply omap_app. Qed.

Lemma stocks_sent_lists lists :
  Forall is_product_list_request lists → stocks_sent lists = [].
Proof.
  induction 1 as [|ev lists (cursor & c & t & ->) _ IH]; [done|].
  exact IH.
Qed.

Lemma stocks_sent_stocks client_id seller_token chunks :
  stocks_sent ((λ chunk, StocksRequest chunk client_id seller_token)
                 <$> chunks) = chunks.
Proof.
  induction chunks as [|chunk chunks IH]; [done|].
  simpl. f_equal. exact IH.
Qed.

Lemma stocks_sent_prices client_id seller_token (chunks : list (list Price.t)) :
  stocks_sent ((λ chunk, PricesRequest chunk client_id seller_token)
                 <$> chunks) = [].
Proof. induction chunks as [|chunk chunks IH]; [done|exact IH]. Qed.

Section Catalogue_stocks.
Context {World : Type} (net : network World).
Context (client_id seller_token : string).
Implicit Types (σ : state World) (l : loc).

(** X11. In a run of the [try] block that returns, the stock chunks that
    were sent hold, taken together, one stock for every SKU of the list that
    was fetched, each SKU as often as the list holds it; and the number of
    stock requests is the length of that list divided by 100, rounded up. *)
Theorem main_stocks_cover_catalogue fuel σ σ' :
  main_try net fuel client_id seller_token σ = (Return (), σ') →
  ∃ l σ1 t,
    get_offer_ids net fuel client_id seller_token σ = (Return l, σ1) ∧
    trace σ' = trace σ ++ t ∧
    Stock.offer_id <$> concat (stocks_sent t) ≡ₚ heap σ1 !!! l ∧
    Z.of_nat (length (stocks_sent t))
    = (Z.of_nat (length (heap σ1 !!! l)) + 99) `div` 100.
Proof.
  unfold main_try, mbind, M_bind.
  destruct (main_update_stocks _ _ _ _ _) as [r1 σ4] eqn:Hfirst.
  apply main_update_stocks_run in Hfirst.
  destruct r1 as [[watch_remnants l]|e|]; [|done..].
  destruct Hfirst as (σ1 & σ2 & stocks & σ3 & lists & chunks & Hids & Hdl
    & Hstocks & Hchunks & Hall & Htrace1 & Hheap2 & Hheap4 & Htrace4).
  intros Hsecond. apply main_change_prices_run in Hsecond as [_ Hsecond].
  destruct Hsecond as [(e & [=] & _)
    |(prices & chunks' & sent & _ & _ & _ & _ & Htrace)].
  apply create_stocks_Return in Hstocks as (_ & _ & _ & _ & _ & _ & Hperm).
  rewrite Hheap2 in Hperm.
  destruct (divide_chunks stocks 100 chunks ltac:(lia) Hchunks) as (Hcat & _).
  pose proof (divide_length stocks 100 chunks ltac:(lia) Hchunks) as Hcount.
  eexists l, σ1, _. split_and!; [done| | |].
  - by rewrite Htrace, Htrace4, Htrace1, <- !app_assoc.
  - rewrite !stocks_sent_app.
    rewrite stocks_sent_lists, stocks_sent_stocks, stocks_sent_prices by done.
    simpl. by rewrite app_nil_r, Hcat.
  - rewrite !stocks_sent_app.
    rewrite stocks_sent_lists, stocks_sent_stocks, stocks_sent_prices by done.
    simpl. rewrite app_nil_r, Hcount.
    apply Permutation_length in Hperm. rewrite length_fmap in Hperm.
    rewrite Hperm. f_equal. lia.
Qed.

(** X12. With an empty catalogue the run ends after the download: when the
    fetched list is empty, [main] sends neither a stock nor a price and
    returns, whatever the rows of the remnants hold; none of their cells is
    read. *)
Theorem main_empty_catalogue fuel σ l σ1 watch_remnants σ2 :
  get_offer_ids net fuel client_id seller_token σ = (Return l, σ1) →
  heap σ1 !!! l = [] →
  download_stock net σ1 = (Return watch_remnants, σ2) →
  main_try net fuel client_id seller_token σ = (Return (), σ2).
Proof.
  intros Hids Hempty Hdl.
  pose proof Hdl as Hheap. apply request_run in Hheap as (Hheap & _).
  assert (∀ watch, watch ∈ watch_remnants → sku watch ∉ heap σ2 !!! l)
    as Hnone.
  { intros watch _. rewrite Hheap, Hempty. apply not_elem_of_nil. }
  unfold main_try, main_update_stocks, main_change_prices, mbind, M_bind.
  rewrite Hids, Hdl.
  rewrite (create_stocks_nothing_matches _ _ _ Hnone).
  rewrite Hheap, Hempty. cbv beta iota. simpl.
  by rewrite (create_prices_nothing_matches _ _ _ Hnone).
Qed.

End Catalogue_stocks.

(** ** The further properties on scripted runs *)

Lemma get_offer_ids_new_list_witness :
  let σ := {| heap := {[ 0%nat := ["x"] ]}; world := listed_once;
              trace := []; stdout := [] |} in
  let run := get_offer_ids (scripted []) 2 "c" "t" σ in
  run.1 = Return 1%nat ∧
  heap σ !! 1%nat = None ∧
  heap run.2 !! 1%nat = Some ["123"] ∧
  heap run.2 !! 0%nat = Some ["x"].
Proof.
  intros σ run.
  assert (get_offer_ids (scripted []) 2 "c" "t" σ = (Return 1%nat, run.2))
    as Hrun by reflexivity.
  destruct (get_offer_ids_new_list (scripted []) "c" "t" 2 σ _ _ Hrun)
    as (_ & Hnew & Hl & Hother).
  split_and!; [reflexivity|exact Hnew|exact Hl|].
  by rewrite Hother.
Defined.

Lemma upload_stocks_returns_witness :
  let run := upload_stocks (scripted []) 3 one_row "c" "t"
               (initial listed_twice) in
  run.1 = Return ([Stock.make "123" 100],
                  [Stock.make "123" 100; Stock.make "123" 0]) ∧
  ∃ lists chunks,
    concat chunks = [Stock.make "123" 100; Stock.make "123" 0] ∧
    trace run.2 = [] ++ lists
      ++ ((λ chunk, StocksRequest chunk "c" "t") <$> chunks) ∧
    ∀ entry, entry ∈ [Stock.make "123" 100] →
      ∃ watch, watch ∈ one_row ∧ emits watch entry.
Proof.
  intros run. split; [reflexivity|].
  assert (upload_stocks (scripted []) 3 one_row "c" "t" (initial listed_twice)
          = (Return ([Stock.make "123" 100],
                     [Stock.make "123" 100; Stock.make "123" 0]), run.2))
    as Hrun by reflexivity.
  destruct (upload_stocks_returns (scripted []) "c" "t" 3 one_row _ _ _ _ Hrun)
    as (l & σ1 & lists & chunks & _ & _ & _ & _ & _ & _ & Hcat & Htrace & _
        & Hrows).
  by exists lists, chunks.
Defined.

Lemma upload_prices_returns_witness :
  let run := upload_prices (scripted []) 3 one_row "c" "t"
               (initial listed_twice) in
  run.1 = Return [Price.make "UNKNOWN" "RUB" "123" "0" "5000"] ∧
  ∃ l σ1 chunks,
    get_offer_ids (scripted []) 3 "c" "t" (initial listed_twice)
    = (Return l, σ1) ∧
    heap run.2 = heap σ1 ∧
    concat chunks = [Price.make "UNKNOWN" "RUB" "123" "0" "5000"] ∧
    trace run.2
    = trace σ1 ++ ((λ chunk, PricesRequest chunk "c" "t") <$> chunks).
Proof.
  intros run. split; [reflexivity|].
  assert (upload_prices (scripted []) 3 one_row "c" "t" (initial listed_twice)
          = (Return [Price.make "UNKNOWN" "RUB" "123" "0" "5000"], run.2))
    as Hrun by reflexivity.
  destruct (upload_prices_returns (scripted []) "c" "t" 3 one_row _ _ _ Hrun)
    as (l & σ1 & chunks & Hids & _ & Hheap & _ & Hcat & Htrace).
  by exists l, σ1, chunks.
Defined.

Lemma uploads_send_nothing_on_bad_cells_witness :
  let watch_remnants := [row (VStr "123") (VStr "many") (VInt 5000)] in
  let σ := initial listed_once in
  (upload_stocks (scripted []) 3 watch_remnants "c" "t" σ).1
  = Raise ValueError ∧
  trace (upload_stocks (scripted []) 3 watch_remnants "c" "t" σ).2
  = [ProductListRequest "" "c" "t"] ∧
  (upload_prices (scripted []) 3 watch_remnants "c" "t" σ).1
  = Raise AttributeError ∧
  trace (upload_prices (scripted []) 3 watch_remnants "c" "t" σ).2
  = [ProductListRequest "" "c" "t"].
Proof.
  intros watch_remnants σ.
  pose (σ1 := (get_offer_ids (scripted []) 3 "c" "t" σ).2).
  assert (get_offer_ids (scripted []) 3 "c" "t" σ = (Return 0%nat, σ1))
    as Hids by reflexivity.
  destruct (uploads_send_nothing_on_bad_cells (scripted []) "c" "t" 3
              watch_remnants σ _ _ Hids) as [Hstocks Hprices].
  destruct (Hstocks ValueError σ1 eq_refl) as [Hraise Htrace].
  rewrite Hraise, Hprices; [done|].
  apply (bool_decide_unpack _). by vm_compute.
Defined.

Lemma main_stocks_cover_catalogue_witness :
  let σ := initial listed_twice in
  let run := main_try (scripted one_row) 3 "client" "token" σ in
  run.1 = Return () ∧
  ∃ l σ1 t,
    get_offer_ids (scripted one_row) 3 "client" "token" σ = (Return l, σ1) ∧
    trace run.2 = trace σ ++ t ∧
    Stock.offer_id <$> concat (stocks_sent t) ≡ₚ heap σ1 !!! l ∧
    Z.of_nat (length (stocks_sent t))
    = (Z.of_nat (length (heap σ1 !!! l)) + 99) `div` 100.
Proof.
  intros σ run. split; [reflexivity|].
  apply (main_stocks_cover_catalogue (scripted one_row) "client" "token" 3 σ).
  reflexivity.
Defined.

Lemma main_empty_catalogue_witness :
  let watch_remnants := [row (VStr "123") (VStr "many") (VInt 5000)] in
  let σ := initial [Page.make [] 0 "p1"] in
  (main_try (scripted watch_remnants) 3 "client" "token" σ).1 = Return () ∧
  trace (main_try (scripted watch_remnants) 3 "client" "token" σ).2
  = [ProductListRequest "" "client" "token"; RemnantsDownload].
Proof.
  intros watch_remnants σ.
  pose (σ1 := (get_offer_ids (scripted watch_remnants) 3 "client" "token" σ).2).
  pose (σ2 := (download_stock (scripted watch_remnants) σ1).2).
  rewrite (main_empty_catalogue (scripted watch_remnants) "client" "token" 3
             σ 0%nat σ1 watch_remnants σ2); done.
Defined.

(** ** [create_stocks]: rows that share a SKU *)

Lemma remove_first_other x y ids ids' :
  remove_first y ids = Some ids' → x ≠ y → x ∈ ids → x ∈ ids'.
Proof.
  intros (before & after & -> & _ & ->)%remove_first_Some Hne.
  rewrite !elem_of_app, elem_of_cons. intros [?|[?|?]]; auto. done.
Qed.

Lemma stocks_of_rows_keeps x watch_remnants ids stocks r ids' :
  stocks_of_rows watch_remnants ids stocks = (r, ids') →
  (∀ watch, watch ∈ watch_remnants → sku watch ≠ x) →
  x ∈ ids → x ∈ ids'.
Proof.
  revert ids stocks.
  induction watch_remnants as [|w rest IH]; intros ids stocks; simpl.
  { by intros [= <- <-]. }
  intros Hrun Hother Hx.
  assert (sku w ≠ x) as Hw by (apply Hother; left).
  assert (∀ watch, watch ∈ rest → sku watch ≠ x) as Hrest
    by (intros watch ?; apply Hother; by right).
  case_bool_decide; [|by eapply IH].
  destruct (stock_of w); [|by simplify_eq].
  destruct (remove_first _ _) as [ids1|] eqn:Hrm; [|by simplify_eq].
  eapply IH; [done..|]. by eapply remove_first_other.
Qed.

Lemma NoDup_fmap_eq {A B} (f : A → B) (l : list A) x y :
  NoDup (f <$> l) → x ∈ l → y ∈ l → f x = f y → x = y.
Proof.
  intros Hnd [i Hi]%list_elem_of_lookup [j Hj]%list_elem_of_lookup Hf.
  assert (i = j) as ->; [|congruence].
  eapply NoDup_lookup; [done| |].
  - by rewrite list_lookup_fmap, Hi.
  - by rewrite list_lookup_fmap, Hj, Hf.
Qed.

(** X13. Of several rows with one SKU the first one counts: when
    [create_stocks] returns, the first row that carries a SKU of the list
    has its entry in the output, with the stock of that row; and when the
    list has no duplicates this is the only entry for the SKU, so the rows
    that repeat it change nothing. *)
Theorem create_stocks_first_row_wins {World} (before : list dict) watch rest l
    (σ σ' : state World) out :
  create_stocks (before ++ watch :: rest) l σ = (Return out, σ') →
  sku watch ∈ heap σ !!! l →
  (∀ earlier, earlier ∈ before → sku earlier ≠ sku watch) →
  ∃ stock,
    stock_of watch = Ok stock ∧
    Stock.make (sku watch) stock ∈ out ∧
    (NoDup (heap σ !!! l) →
     ∀ entry, entry ∈ out → Stock.offer_id entry = sku watch →
              entry = Stock.make (sku watch) stock).
Proof.
  intros Hrun Hin Hfirst.
  pose proof Hrun as Hperm.
  apply create_stocks_Return in Hperm as (_ & _ & _ & _ & _ & _ & Hperm).
  destruct (create_stocks_run (before ++ watch :: rest) l σ)
    as (σ'' & Hrun' & _ & _).
  rewrite Hrun in Hrun'. rewrite stocks_of_rows_app in Hrun'.
  destruct (stocks_of_rows before _ _) as [[stocks1|e] ids1] eqn:Hbefore;
    [|done].
  pose proof (stocks_of_rows_keeps _ _ _ _ _ _ Hbefore Hfirst Hin) as Hin1.
  simpl in Hrun'. rewrite bool_decide_eq_true_2 in Hrun' by done.
  destruct (stock_of watch) as [stock|e] eqn:Hstock; [|done].
  destruct (remove_first _ _) as [ids2|]; [|done].
  destruct (stocks_of_rows rest _ _) as [[stocks|e] ids'] eqn:Hrest; [|done].
  injection Hrun' as Hout _.
  apply stocks_of_rows_Ok in Hrest as (_ & entries & -> & _).
  assert (Stock.make (sku watch) stock ∈ out) as Hentry.
  { rewrite Hout, !elem_of_app, list_elem_of_singleton. auto. }
  exists stock. split_and!; [done..|].
  intros Hnd entry Hentry' Hsku.
  apply (NoDup_fmap_eq Stock.offer_id out); [|done..].
  by rewrite Hperm.
Qed.

Lemma create_stocks_first_row_wins_witness :
  let σ := {| heap := {[ 0%nat := ["123"; "124"] ]};
              world := (); trace := []; stdout := [] |} in
  let watch_remnants :=
    [row (VStr "124") (VStr "7") VNone] ++
    row (VStr "123") (VStr "5") VNone ::
    [row (VStr "123") (VStr "many") VNone] in
  (create_stocks watch_remnants 0%nat σ).1
  = Return [Stock.make "124" 7; Stock.make "123" 5] ∧
  ∃ stock, Stock.make "123" stock ∈ [Stock.make "124" 7; Stock.make "123" 5] ∧
    ∀ entry, entry ∈ [Stock.make "124" 7; Stock.make "123" 5] →
             Stock.offer_id entry = "123" → entry = Stock.make "123" stock.
Proof.
  intros σ watch_remnants. split; [reflexivity|].
  destruct (create_stocks_first_row_wins
              [row (VStr "124") (VStr "7") VNone]
              (row (VStr "123") (VStr "5") VNone)
              [row (VStr "123") (VStr "many") VNone] 0%nat σ
              (create_stocks watch_remnants 0%nat σ).2
              [Stock.make "124" 7; Stock.make "123" 5])
    as (stock & _ & Hentry & Honly).
  - reflexivity.
  - apply (bool_decide_unpack _). by vm_compute.
  - apply Forall_forall. apply (bool_decide_unpack _). by vm_compute.
  - exists stock. split; [exact Hentry|].
    apply Honly. apply (bool_decide_unpack _). by vm_compute.
Defined.
